(** * The value sanitizer of [demonstrate_yaml_fix.py]

    A shallow embedding of [simulate_swift_sanitize], the nested function of
    [demonstrate_yaml_issues] that turns the values a YAML emitter rejects
    (datetime, bytes, Path) into text, together with the library calls it
    makes: [datetime.isoformat], [base64.b64encode], [bytes.decode('utf-8')]
    and [str] of a [pathlib] path. *)

From Stdlib Require Import List String Ascii Strings.Byte Bool.
From Stdlib Require Import NArith ZArith Lia.
From Stdlib Require Import DecimalString.
From Stdlib Require Floats.SpecFloat.
Import ListNotations.

Local Open Scope N_scope.

(* ================================================================= *)
(** ** Python results: a value or a raised exception *)

Inductive exn : Type :=
| UnicodeDecodeError
| RecursionError.

Inductive result (A : Type) : Type :=
| Ok (a : A)
| Raise (e : exn).

Arguments Ok {A} a.
Arguments Raise {A} e.

Definition bind {A B : Type} (r : result A) (k : A -> result B) : result B :=
  match r with
  | Ok a => k a
  | Raise e => Raise e
  end.

Notation "x <- r ;; k" := (bind r (fun x => k))
  (at level 61, r at next level, right associativity).

(* ================================================================= *)
(** ** [base64.b64encode]: RFC 4648 base64 with the standard alphabet *)

Module Base64.

(** The 64 characters of the standard alphabet, indexed by 6-bit value
    (the table [table_b2a_base64] of [binascii]). *)
Definition table_b2a_base64 : list byte :=
  list_byte_of_string
    "ABCDEFGHIJKLMNOPQRSTUVWXYZabcdefghijklmnopqrstuvwxyz0123456789+/".

Definition BASE64_PAD : byte := "="%byte.

Definition b2a (i : N) : byte := nth (N.to_nat i) table_b2a_base64 BASE64_PAD.

(** Three input bytes [a b c] hold 24 bits, emitted as four 6-bit groups:
    [a >> 2], [(a & 3) << 4 | b >> 4], [(b & 15) << 2 | c >> 6], [c & 63].
    A final group of one or two bytes is filled with zero bits and padded
    with [=] to four characters.  No line break is ever inserted
    ([b64encode] calls [b2a_base64] with [newline=False]). *)
Fixpoint b64encode (s : list byte) : list byte :=
  match s with
  | [] => []
  | [a] =>
      let a := Byte.to_N a in
      [b2a (a / 4); b2a (a mod 4 * 16); BASE64_PAD; BASE64_PAD]
  | [a; b] =>
      let a := Byte.to_N a in
      let b := Byte.to_N b in
      [b2a (a / 4); b2a (a mod 4 * 16 + b / 16); b2a (b mod 16 * 4);
       BASE64_PAD]
  | a :: b :: c :: rest =>
      let a := Byte.to_N a in
      let b := Byte.to_N b in
      let c := Byte.to_N c in
      b2a (a / 4) :: b2a (a mod 4 * 16 + b / 16)
        :: b2a (b mod 16 * 4 + c / 64) :: b2a (c mod 64)
        :: b64encode rest
  end.

(** *** A strict RFC 4648 decoder, the reference the encoder is checked
    against.  It accepts only whole groups of four characters of the
    alphabet, padding only in the last group, and only zero fill bits. *)

Fixpoint index_of (c : byte) (table : list byte) (i : N) : option N :=
  match table with
  | [] => None
  | x :: rest => if Byte.eqb x c then Some i else index_of c rest (N.succ i)
  end.

Definition a2b (c : byte) : option N := index_of c table_b2a_base64 0.

Definition obind {A B : Type} (o : option A) (k : A -> option B) : option B :=
  match o with
  | Some a => k a
  | None => None
  end.

Definition decode_full (c1 c2 c3 c4 : byte) : option (list byte) :=
  obind (a2b c1) (fun i1 =>
  obind (a2b c2) (fun i2 =>
  obind (a2b c3) (fun i3 =>
  obind (a2b c4) (fun i4 =>
  obind (Byte.of_N (i1 * 4 + i2 / 16)) (fun x =>
  obind (Byte.of_N (i2 mod 16 * 16 + i3 / 4)) (fun y =>
  obind (Byte.of_N (i3 mod 4 * 64 + i4)) (fun z =>
  Some [x; y; z]))))))).

Definition decode_two (c1 c2 c3 : byte) : option (list byte) :=
  obind (a2b c1) (fun i1 =>
  obind (a2b c2) (fun i2 =>
  obind (a2b c3) (fun i3 =>
  if i3 mod 4 =? 0 then
    obind (Byte.of_N (i1 * 4 + i2 / 16)) (fun x =>
    obind (Byte.of_N (i2 mod 16 * 16 + i3 / 4)) (fun y =>
    Some [x; y]))
  else None))).

Definition decode_one (c1 c2 : byte) : option (list byte) :=
  obind (a2b c1) (fun i1 =>
  obind (a2b c2) (fun i2 =>
  if i2 mod 16 =? 0 then
    obind (Byte.of_N (i1 * 4 + i2 / 16)) (fun x => Some [x])
  else None)).

Definition decode_last (c1 c2 c3 c4 : byte) : option (list byte) :=
  if Byte.eqb c4 BASE64_PAD then
    if Byte.eqb c3 BASE64_PAD then decode_one c1 c2 else decode_two c1 c2 c3
  else decode_full c1 c2 c3 c4.

Fixpoint b64decode (s : list byte) : option (list byte) :=
  match s with
  | [] => Some []
  | c1 :: c2 :: c3 :: c4 :: rest =>
      match rest with
      | [] => decode_last c1 c2 c3 c4
      | _ :: _ =>
          obind (decode_full c1 c2 c3 c4) (fun group =>
          obind (b64decode rest) (fun tail => Some (group ++ tail)))
      end
  | _ => None
  end.

(** Text is base64 text when it is made of the alphabet and of [=]. *)
Definition is_b64_char (c : byte) : bool :=
  match a2b c with
  | Some _ => true
  | None => Byte.eqb c BASE64_PAD
  end.

(** The number of [=] characters of a text. *)
Definition padding (s : list byte) : nat :=
  List.length (filter (Byte.eqb BASE64_PAD) s).

End Base64.

(* ================================================================= *)
(** ** [bytes.decode('utf-8')] *)

Module Utf8.

Definition between (lo hi : N) (b : byte) : bool :=
  (lo <=? Byte.to_N b) && (Byte.to_N b <=? hi).

(** Well-formed UTF-8 byte sequences (Unicode, table 3-7): shortest forms
    only, no surrogates, nothing above U+10FFFF. *)
Fixpoint is_utf8 (s : list byte) : bool :=
  match s with
  | [] => true
  | b0 :: t =>
      if between 0x00 0x7F b0 then is_utf8 t
      else if between 0xC2 0xDF b0 then
        match t with
        | b1 :: t1 => between 0x80 0xBF b1 && is_utf8 t1
        | _ => false
        end
      else if between 0xE0 0xEF b0 then
        match t with
        | b1 :: b2 :: t2 =>
            (if between 0xE0 0xE0 b0 then between 0xA0 0xBF b1
             else if between 0xED 0xED b0 then between 0x80 0x9F b1
             else between 0x80 0xBF b1)
            && between 0x80 0xBF b2 && is_utf8 t2
        | _ => false
        end
      else if between 0xF0 0xF4 b0 then
        match t with
        | b1 :: b2 :: b3 :: t3 =>
            (if between 0xF0 0xF0 b0 then between 0x90 0xBF b1
             else if between 0xF4 0xF4 b0 then between 0x80 0x8F b1
             else between 0x80 0xBF b1)
            && between 0x80 0xBF b2 && between 0x80 0xBF b3
            && is_utf8 t3
        | _ => false
        end
      else false
  end.

(** Text is held as the code units of its UTF-8 form, so decoding keeps
    the bytes of a well-formed sequence and raises on any other. *)
Definition decode (s : list byte) : result string :=
  if is_utf8 s then Ok (string_of_list_byte s)
  else Raise UnicodeDecodeError.

Definition encode (s : string) : list byte := list_byte_of_string s.

End Utf8.

(* ================================================================= *)
(** ** [datetime.datetime] and [datetime.isoformat] *)

Module Datetime.

Local Open Scope string_scope.

(** The fields of a [datetime] object; [utcoffset] is what
    [self.utcoffset()] returns: [None] for a naive object, otherwise the
    offset from UTC, here in microseconds. *)
Record datetime : Type := mk_datetime {
  year : N;
  month : N;
  day : N;
  hour : N;
  minute : N;
  second : N;
  microsecond : N;
  utcoffset : option Z
}.

Definition MINYEAR : N := 1.
Definition MAXYEAR : N := 9999.

Definition _is_leap (y : N) : bool :=
  ((y mod 4 =? 0) && (negb (y mod 100 =? 0) || (y mod 400 =? 0)))%N.

(** The days of the months of a common year, January first. *)
Definition _DAYS_IN_MONTH : list N :=
  [31; 28; 31; 30; 31; 30; 31; 31; 30; 31; 30; 31]%N.

Definition _days_in_month (y m : N) : N :=
  if ((m =? 2) && _is_leap y)%N then 29%N
  else nth (N.to_nat (m - 1)) _DAYS_IN_MONTH 0%N.

Definition one_day_us : Z := 86400000000.

(** What the constructor checks: every [datetime] object satisfies it. *)
Definition valid (d : datetime) : bool :=
  ((MINYEAR <=? year d) && (year d <=? MAXYEAR)
   && (1 <=? month d) && (month d <=? 12)
   && (1 <=? day d) && (day d <=? _days_in_month (year d) (month d))
   && (hour d <? 24) && (minute d <? 60) && (second d <? 60)
   && (microsecond d <? 1000000))%N
  && match utcoffset d with
     | None => true
     | Some off => ((- one_day_us <? off) && (off <? one_day_us))%Z
     end.

(** The character of the last decimal digit of [n]. *)
Definition digit (n : N) : ascii := ascii_of_N (48 + n mod 10).

(** The decimal digits of [n], most significant first; [fuel] bounds
    their number. *)
Fixpoint digits (fuel : nat) (n : N) : string :=
  match fuel with
  | O => EmptyString
  | S fuel' =>
      if (n <? 10)%N then String (digit n) EmptyString
      else digits fuel' (n / 10) ++ String (digit n) EmptyString
  end.

(** [str(n)] for a non-negative integer: a number has no more decimal
    digits than binary ones. *)
Definition decimal (n : N) : string :=
  digits (S (N.to_nat (N.log2 n))) n.

Fixpoint zeros (k : nat) : string :=
  match k with
  | O => EmptyString
  | S k' => String "0" (zeros k')
  end.

(** ["%0wd" % n] for a non-negative [n]: at least [w] characters, filled
    with zeros on the left. *)
Definition fmt_0d (w : nat) (n : N) : string :=
  let s := decimal n in
  zeros (w - String.length s) ++ s.

(** Exactly [w] digits: the [w] low-order decimal digits of [n]. *)
Fixpoint zero_padded (w : nat) (n : N) : string :=
  match w with
  | O => EmptyString
  | S w' => zero_padded w' (n / 10) ++ String (digit n) EmptyString
  end.

(** [_format_time] with [timespec='auto']: the fraction is printed only
    when the microsecond is not zero. *)
Definition _format_time (hh mm ss us : N) : string :=
  let hms := fmt_0d 2 hh ++ ":" ++ fmt_0d 2 mm ++ ":" ++ fmt_0d 2 ss in
  if (us =? 0)%N then hms else hms ++ "." ++ fmt_0d 6 us.

(** [_format_offset]: sign, hours and minutes, then seconds and
    microseconds when they are not zero; nothing for a naive object. *)
Definition _format_offset (off : option Z) : string :=
  match off with
  | None => EmptyString
  | Some off =>
      let sign := if (off <? 0)%Z then "-" else "+" in
      let a := Z.to_N (Z.abs off) in
      let hh := (a / 3600000000)%N in
      let r := (a mod 3600000000)%N in
      let mm := (r / 60000000)%N in
      let ss := (r mod 60000000)%N in
      let s := sign ++ fmt_0d 2 hh ++ ":" ++ fmt_0d 2 mm in
      if (ss =? 0)%N then s
      else
        let s := s ++ ":" ++ fmt_0d 2 (ss / 1000000)%N in
        if (ss mod 1000000 =? 0)%N then s
        else s ++ "." ++ fmt_0d 6 (ss mod 1000000)%N
  end.

Definition isoformat (d : datetime) : string :=
  fmt_0d 4 (year d) ++ "-" ++ fmt_0d 2 (month d) ++ "-" ++ fmt_0d 2 (day d)
    ++ "T"
    ++ _format_time (hour d) (minute d) (second d) (microsecond d)
    ++ _format_offset (utcoffset d).

(** *** The shapes the formatted text can have *)

Definition is_digit (c : ascii) : bool :=
  ((48 <=? N_of_ascii c) && (N_of_ascii c <=? 57))%N.

(** [w] digits, then whatever [k] accepts. *)
Fixpoint digits_then (w : nat) (k : string -> bool) (s : string) : bool :=
  match w with
  | O => k s
  | S w' =>
      match s with
      | String c rest => is_digit c && digits_then w' k rest
      | EmptyString => false
      end
  end.

Definition lit (c : ascii) (k : string -> bool) (s : string) : bool :=
  match s with
  | String x rest => Ascii.eqb x c && k rest
  | EmptyString => false
  end.

Definition fin (s : string) : bool :=
  match s with
  | EmptyString => true
  | _ => false
  end.

(** [YYYY-MM-DDTHH:MM:SS] followed by what [k] accepts. *)
Definition date_time_then (k : string -> bool) : string -> bool :=
  digits_then 4 (lit "-" (digits_then 2 (lit "-" (digits_then 2 (lit "T"
    (digits_then 2 (lit ":" (digits_then 2 (lit ":" (digits_then 2 k))))))))))
  .

(** Exactly [YYYY-MM-DDTHH:MM:SSZ]. *)
Definition shape_seconds_Z : string -> bool :=
  date_time_then (lit "Z" fin).

(** Exactly [YYYY-MM-DDTHH:MM:SS.ffffffZ]. *)
Definition shape_micros_Z : string -> bool :=
  date_time_then (lit "." (digits_then 6 (lit "Z" fin))).

(** The last character of a text, if any. *)
Fixpoint last_char (s : string) : option ascii :=
  match s with
  | EmptyString => None
  | String c EmptyString => Some c
  | String _ rest => last_char rest
  end.

End Datetime.

(* ================================================================= *)
(** ** [pathlib.Path] on a POSIX system and its [str] *)

Module Pathlib.

Local Open Scope string_scope.

(** A parsed path: the root (empty, ["/"] or ["//"]) and the components
    after it.  The drive is always empty on POSIX. *)
Record PurePosixPath : Type := mk_path {
  root : string;
  tail : list string
}.

Definition sep : ascii := "/"%char.

(** [sep.join(parts)]. *)
Fixpoint join (parts : list string) : string :=
  match parts with
  | [] => EmptyString
  | [x] => x
  | x :: rest => x ++ String sep (join rest)
  end.

Definition is_empty (s : string) : bool :=
  match s with
  | EmptyString => true
  | _ => false
  end.

(** [_format_parsed_parts] with an empty drive. *)
Definition _format_parsed_parts (rt : string) (tl : list string) : string :=
  if is_empty rt then join tl else rt ++ join tl.

(** [__str__]: [self._format_parsed_parts(...) or '.']. *)
Definition path_str (p : PurePosixPath) : string :=
  let s := _format_parsed_parts (root p) (tail p) in
  if is_empty s then "." else s.

(** *** Parsing, as the constructor does it ([_parse_path]) *)

(** [posixpath.splitroot]: exactly two leading slashes are a root of
    their own, one or more than two are the root ["/"]. *)
Definition splitroot (p : string) : string * string :=
  match p with
  | String "/" (String "/" (String "/" r)) => ("/", String "/" (String "/" r))
  | String "/" (String "/" r) => ("//", r)
  | String "/" r => ("/", r)
  | _ => (EmptyString, p)
  end.

(** [s.split('/')]. *)
Fixpoint split (s : string) : list string :=
  match s with
  | EmptyString => [EmptyString]
  | String c rest =>
      if Ascii.eqb c sep then EmptyString :: split rest
      else
        match split rest with
        | [] => [String c EmptyString]
        | x :: xs => String c x :: xs
        end
  end.

(** [x and x != '.'] *)
Definition kept (x : string) : bool :=
  negb (is_empty x) && negb (String.eqb x ".").

Definition _parse_path (path : string) : PurePosixPath :=
  if is_empty path then mk_path EmptyString []
  else
    let (rt, rel) := splitroot path in
    mk_path rt (filter kept (split rel)).

Fixpoint has_sep (s : string) : bool :=
  match s with
  | EmptyString => false
  | String c rest => Ascii.eqb c sep || has_sep rest
  end.

Definition starts_with_sep (s : string) : bool :=
  match s with
  | String c _ => Ascii.eqb c sep
  | EmptyString => false
  end.

(** The paths the constructor can build. *)
Definition parsed (p : PurePosixPath) : bool :=
  (String.eqb (root p) EmptyString || String.eqb (root p) "/"
   || String.eqb (root p) "//")
  && forallb (fun x => kept x && negb (has_sep x)) (tail p).

End Pathlib.

(* ================================================================= *)
(** ** The values the sanitizer walks *)

(** The scalar kinds: the basic types a property list holds and the three
    kinds the emitter rejects.  Every one of them is hashable, so they are
    also what a dictionary key can be. *)
Inductive scalar : Type :=
| PyStr (s : string)
| PyInt (n : Z)
| PyFloat (f : SpecFloat.spec_float)
| PyBool (b : bool)
| PyNone
| PyDatetime (d : Datetime.datetime)
| PyBytes (b : list byte)
| PyPath (p : Pathlib.PurePosixPath).

(** A [dict] keeps its items in insertion order.  The induction principle
    that reaches the values inside the containers is [pyobj_ind] below. *)
Unset Elimination Schemes.
Inductive pyobj : Type :=
| Scalar (s : scalar)
| PyDict (items : list (scalar * pyobj))
| PyList (items : list pyobj).
Set Elimination Schemes.

(* ================================================================= *)
(** ** The vocabulary of the properties *)

Definition is_text (s : scalar) : bool :=
  match s with
  | PyStr _ => true
  | _ => false
  end.

(** Text, number, boolean or null. *)
Definition safe_scalar (s : scalar) : bool :=
  match s with
  | PyStr _ | PyInt _ | PyFloat _ | PyBool _ | PyNone => true
  | PyDatetime _ | PyBytes _ | PyPath _ => false
  end.

(** Every key of every mapping is text. *)
Fixpoint text_keys (obj : pyobj) : bool :=
  match obj with
  | Scalar _ => true
  | PyDict items =>
      forallb (fun kv => is_text (fst kv) && text_keys (snd kv)) items
  | PyList items => forallb text_keys items
  end.

(** Every scalar leaf is text, number, boolean or null. *)
Fixpoint safe_leaves (obj : pyobj) : bool :=
  match obj with
  | Scalar s => safe_scalar s
  | PyDict items => forallb (fun kv => safe_leaves (snd kv)) items
  | PyList items => forallb safe_leaves items
  end.

Section Sanitizer.

(** How the runtime compares a stored key with a new one (same hash and
    [==]).  It is not fixed here: everything below holds whatever it is. *)
Variable key_eq : scalar -> scalar -> bool.

(** [d[key] = value]: the value of an equal key is replaced where it
    stands, under the key already stored; a new key goes last. *)
Fixpoint dict_setitem (d : list (scalar * pyobj)) (key : scalar)
    (value : pyobj) : list (scalar * pyobj) :=
  match d with
  | [] => [(key, value)]
  | (k0, v0) :: rest =>
      if key_eq k0 key then (k0, value) :: rest
      else (k0, v0) :: dict_setitem rest key value
  end.

(** [simulate_swift_sanitize], branch by branch in the order of the
    [isinstance] tests. *)
Fixpoint simulate_swift_sanitize (obj : pyobj) : result pyobj :=
  match obj with
  | Scalar (PyDatetime d) =>
      (* obj.isoformat() + "Z" *)
      Ok (Scalar (PyStr (Datetime.isoformat d ++ "Z")))
  | Scalar (PyBytes b) =>
      (* base64.b64encode(obj).decode('utf-8') *)
      s <- Utf8.decode (Base64.b64encode b) ;;
      Ok (Scalar (PyStr s))
  | Scalar (PyPath p) =>
      (* str(obj) *)
      Ok (Scalar (PyStr (Pathlib.path_str p)))
  | PyDict items =>
      (* {key: simulate_swift_sanitize(value)
          for key, value in obj.items()} *)
      (fix comprehension (its : list (scalar * pyobj))
           (acc : list (scalar * pyobj)) : result pyobj :=
         match its with
         | [] => Ok (PyDict acc)
         | (key, value) :: more =>
             v <- simulate_swift_sanitize value ;;
             comprehension more (dict_setitem acc key v)
         end) items []
  | PyList items =>
      (* [simulate_swift_sanitize(item) for item in obj] *)
      l <- (fix comprehension (its : list pyobj) : result (list pyobj) :=
              match its with
              | [] => Ok []
              | item :: more =>
                  v <- simulate_swift_sanitize item ;;
                  vs <- comprehension more ;;
                  Ok (v :: vs)
              end) items ;;
      Ok (PyList l)
  | Scalar _ => Ok obj
  end.

(** The two comprehensions on their own, over what is done to an item. *)
Section Comprehension.

Variable sanitize_item : pyobj -> result pyobj.

Fixpoint dict_comprehension (its acc : list (scalar * pyobj))
    : result pyobj :=
  match its with
  | [] => Ok (PyDict acc)
  | (key, value) :: more =>
      v <- sanitize_item value ;;
      dict_comprehension more (dict_setitem acc key v)
  end.

Fixpoint list_comprehension (its : list pyobj) : result (list pyobj) :=
  match its with
  | [] => Ok []
  | item :: more =>
      v <- sanitize_item item ;;
      vs <- list_comprehension more ;;
      Ok (v :: vs)
  end.

End Comprehension.

(** *** The call stack *)

Section CallStack.

(** Whether a comprehension runs in a frame of its own: it does up to
    CPython 3.11, where a comprehension is a function that is called; from
    3.12 on it is inlined in the frame of the function. *)
Variable comprehension_frame : bool.

(** The frames that the library call of a converted leaf ([isoformat],
    [b64encode], [str] of a path) puts on the stack at its deepest. *)
Variable library_frames : scalar -> nat.

(** The same function as the interpreter runs it, [room] being the number
    of frames that the call stack can still take when it is called (the
    recursion limit less the frames in use): a call needs a frame, so does
    a comprehension where it is a function, and when there is no room for
    one [RecursionError] is raised. *)
Fixpoint sanitize_frames (room : nat) (obj : pyobj) : result pyobj :=
  match room with
  | O => Raise RecursionError
  | S below =>
      match obj with
      | Scalar (PyDatetime d) =>
          if (library_frames (PyDatetime d) <=? below)%nat then
            Ok (Scalar (PyStr (Datetime.isoformat d ++ "Z")))
          else Raise RecursionError
      | Scalar (PyBytes b) =>
          if (library_frames (PyBytes b) <=? below)%nat then
            s <- Utf8.decode (Base64.b64encode b) ;;
            Ok (Scalar (PyStr s))
          else Raise RecursionError
      | Scalar (PyPath p) =>
          if (library_frames (PyPath p) <=? below)%nat then
            Ok (Scalar (PyStr (Pathlib.path_str p)))
          else Raise RecursionError
      | PyDict items =>
          if comprehension_frame then
            match below with
            | O => Raise RecursionError
            | S inside =>
                dict_comprehension (sanitize_frames inside) items []
            end
          else dict_comprehension (sanitize_frames below) items []
      | PyList items =>
          if comprehension_frame then
            match below with
            | O => Raise RecursionError
            | S inside =>
                l <- list_comprehension (sanitize_frames inside) items ;;
                Ok (PyList l)
            end
          else
            l <- list_comprehension (sanitize_frames below) items ;;
            Ok (PyList l)
      | Scalar _ => Ok obj
      end
  end.

(** The frames a leaf needs beyond the call: those of its library call. *)
Definition leaf_frames (s : scalar) : nat :=
  match s with
  | PyDatetime _ | PyBytes _ | PyPath _ => library_frames s
  | _ => O
  end.

(** The frames of a comprehension. *)
Definition comprehension_cost : nat :=
  if comprehension_frame then 1%nat else O.

(** The frames the call on [obj] needs at its deepest: its own, those of
    its comprehension, and those of the item that needs most. *)
Fixpoint frames_needed (obj : pyobj) : nat :=
  match obj with
  | Scalar s => S (leaf_frames s)
  | PyDict items =>
      S (comprehension_cost
         + fold_right (fun kv m => Nat.max (frames_needed (snd kv)) m) O
             items)
  | PyList items =>
      S (comprehension_cost
         + fold_right (fun x m => Nat.max (frames_needed x) m) O items)
  end.

End CallStack.

(** *** Well-formed dictionaries *)

(** No stored key equals [k]. *)
Definition fresh (k : scalar) (keys : list scalar) : bool :=
  forallb (fun k0 => negb (key_eq k0 k)) keys.

(** No key equals a later one: what the runtime maintains for every
    [dict]. *)
Fixpoint distinct_keys (keys : list scalar) : bool :=
  match keys with
  | [] => true
  | k :: later =>
      forallb (fun k' => negb (key_eq k k')) later && distinct_keys later
  end.

(** Every dictionary of the tree has distinct keys. *)
Fixpoint well_formed (obj : pyobj) : bool :=
  match obj with
  | Scalar _ => true
  | PyDict items =>
      distinct_keys (map fst items)
      && forallb (fun kv => well_formed (snd kv)) items
  | PyList items => forallb well_formed items
  end.

(** The sanitizer returns on [obj], what it returns has only safe leaves,
    and text keys stay text keys. *)
Definition returns_safe (obj : pyobj) : Prop :=
  exists r, simulate_swift_sanitize obj = Ok r
            /\ safe_leaves r = true
            /\ (text_keys obj = true -> text_keys r = true).

End Sanitizer.

(* ================================================================= *)
(** ** The vocabulary of the properties, continued *)

(** A Value: mappings keyed by text, sequences, scalars of any kind. *)
Definition is_Value (obj : pyobj) : bool := text_keys obj.

(** A SafeValue: a Value without datetime, bytes or path anywhere. *)
Definition is_SafeValue (obj : pyobj) : bool :=
  text_keys obj && safe_leaves obj.

(** The containers of a value with their keys, order and lengths, the
    leaves forgotten. *)
Unset Elimination Schemes.
Inductive shape : Type :=
| Leaf
| Mapping (items : list (scalar * shape))
| Sequence (items : list shape).
Set Elimination Schemes.

Fixpoint shape_of (obj : pyobj) : shape :=
  match obj with
  | Scalar _ => Leaf
  | PyDict items => Mapping (map (fun kv => (fst kv, shape_of (snd kv))) items)
  | PyList items => Sequence (map shape_of items)
  end.

(** The text a leaf is turned into, following the table of the
    specification; the other leaves are kept. *)
Definition leaf_text (s : scalar) : scalar :=
  match s with
  | PyDatetime d => PyStr (Datetime.isoformat d ++ "Z")
  | PyBytes b => PyStr (string_of_list_byte (Base64.b64encode b))
  | PyPath p => PyStr (Pathlib.path_str p)
  | _ => s
  end.

(** The same tree with [f] applied to every leaf and nothing else
    touched. *)
Fixpoint map_leaves (f : scalar -> scalar) (obj : pyobj) : pyobj :=
  match obj with
  | Scalar s => Scalar (f s)
  | PyDict items =>
      PyDict (map (fun kv => (fst kv, map_leaves f (snd kv))) items)
  | PyList items => PyList (map (map_leaves f) items)
  end.

(** The scalar leaves of a value, left to right. *)
Fixpoint leaves (obj : pyobj) : list scalar :=
  match obj with
  | Scalar s => [s]
  | PyDict items => flat_map (fun kv => leaves (snd kv)) items
  | PyList items => flat_map leaves items
  end.

(** [n] lists around a value. *)
Fixpoint nested (n : nat) (obj : pyobj) : pyobj :=
  match n with
  | O => obj
  | S n' => PyList [nested n' obj]
  end.

(** One comparison of keys, to run the sanitizer on examples: text with
    text and bytes with bytes by content, as [==] does; the examples use no
    two keys of another kind. *)
Definition same_key (a b : scalar) : bool :=
  match a, b with
  | PyStr x, PyStr y => String.eqb x y
  | PyBytes x, PyBytes y =>
      String.eqb (string_of_list_byte x) (string_of_list_byte y)
  | PyNone, PyNone => true
  | _, _ => false
  end.

(** ** The data of the demonstration *)

(** [problematic_data], with [now] for the two calls of [datetime.now()]. *)
Definition problematic_data (now : Datetime.datetime) : pyobj :=
  PyDict
    [ (PyStr "name", Scalar (PyStr "SetDisplayResolution"));
      (PyStr "version", Scalar (PyStr "15.6.1"));
      (PyStr "catalogs",
        PyList [Scalar (PyStr "testing"); Scalar (PyStr "production")]);
      (PyStr "category", Scalar (PyStr "Utilities"));
      (PyStr "developer", Scalar (PyStr "Developer Name"));
      (PyStr "display_name", Scalar (PyStr "Set Display Resolution"));
      (PyStr "description", Scalar (PyStr "Tool to set display resolution"));
      (PyStr "installer_item_location",
        Scalar (PyStr "prefs/curriculum/SetDisplayResolution-15.6.1.pkg"));
      (PyStr "install_date", Scalar (PyDatetime now));
      (PyStr "receipt_data",
        Scalar (PyBytes (list_byte_of_string "binary_data_here")));
      (PyStr "package_path",
        Scalar (PyPath (Pathlib._parse_path "/path/to/package.pkg")));
      (PyStr "complex_metadata",
        PyDict
          [ (PyStr "creation_date",
              Scalar (PyDatetime
                        (Datetime.mk_datetime 2024 1 15 10 30 0 0 None)));
            (PyStr "binary_info",
              Scalar (PyBytes (list_byte_of_string "more_binary_data")));
            (PyStr "nested_structure",
              PyDict
                [ (PyStr "timestamp", Scalar (PyDatetime now));
                  (PyStr "data_blob",
                    Scalar (PyBytes (list_byte_of_string "nested_binary")))
                ]) ]) ].

(** A reading of the clock, as [datetime.now()] gives it: no UTC offset and
    a microsecond that is seldom zero. *)
Definition a_clock_reading : Datetime.datetime :=
  Datetime.mk_datetime 2025 8 20 14 3 27 123456 None.

(** Values to run the properties on: a safe value, a dictionary whose keys
    are not all text, and a path through [..]. *)
Definition widget : pyobj :=
  PyDict
    [(PyStr "name", Scalar (PyStr "Widget"));
     (PyStr "count", Scalar (PyInt 3));
     (PyStr "extras",
       PyList [Scalar PyNone; Scalar (PyBool true);
               Scalar (PyFloat (SpecFloat.S754_zero false))])].

Definition odd_keys : list (scalar * pyobj) :=
  [(PyBytes (list_byte_of_string "k"),
     Scalar (PyBytes (list_byte_of_string "ab")));
   (PyDatetime (Datetime.mk_datetime 2024 1 15 10 30 0 0 None),
     Scalar (PyInt 1));
   (PyStr "t", Scalar (PyPath (Pathlib.mk_path "/" ["tmp"]%string)))].

Definition dotted_path : Pathlib.PurePosixPath :=
  Pathlib.mk_path "/" ["path"; ".."; "to"; "package.pkg"]%string.

(** [P] holds of every number below [k]. *)
Definition all_below (k : N) (P : N -> bool) : bool :=
  N.recursion true (fun i acc => P i && acc) k.

(* ================================================================= *)
(** ** Instants as points in time: what [datetime] compares *)

Module Calendar.

Import Datetime.

(** [_days_before_year]: the days before January 1st of year [y]. *)
Definition _days_before_year (y : Z) : Z :=
  let y := (y - 1)%Z in
  (y * 365 + y / 4 - y / 100 + y / 400)%Z.

(** The days of a common year before the first of each month. *)
Definition _DAYS_BEFORE_MONTH : list Z :=
  [0; 31; 59; 90; 120; 151; 181; 212; 243; 273; 304; 334]%Z.

(** [_DAYS_BEFORE_MONTH[month] + (month > 2 and _is_leap(year))] *)
Definition _days_before_month (y m : N) : Z :=
  (nth (N.to_nat (m - 1)) _DAYS_BEFORE_MONTH 0
   + (if (2 <? m)%N && _is_leap y then 1 else 0))%Z.

(** [_ymd2ord]: the ordinal of a day, January 1st of year 1 being day 1. *)
Definition _ymd2ord (y m d : N) : Z :=
  (_days_before_year (Z.of_N y) + _days_before_month y m + Z.of_N d)%Z.

(** The microseconds from the start of the calendar to the date and time
    that the fields give, no offset applied. *)
Definition local_us (d : datetime) : Z :=
  ((_ymd2ord (year d) (month d) (day d) * 86400
    + (Z.of_N (hour d) * 3600 + Z.of_N (minute d) * 60 + Z.of_N (second d)))
   * 1000000 + Z.of_N (microsecond d))%Z.

(** The same in UTC: the offset taken off.  An instant without offset is
    taken as it is, as the property-list loader gives UTC. *)
Definition utc_us (d : datetime) : Z :=
  (local_us d - match utcoffset d with
                | Some off => off
                | None => 0
                end)%Z.

Definition same_fields (d1 d2 : datetime) : bool :=
  ((year d1 =? year d2) && (month d1 =? month d2) && (day d1 =? day d2)
   && (hour d1 =? hour d2) && (minute d1 =? minute d2)
   && (second d1 =? second d2) && (microsecond d1 =? microsecond d2))%N.

(** [d1 == d2]: the fields are compared when both instants have the same
    offset or none; with two different offsets the instants are equal when
    their difference, offsets taken off, is zero; an instant with an
    offset never equals one without. *)
Definition datetime_eq (d1 d2 : datetime) : bool :=
  match utcoffset d1, utcoffset d2 with
  | None, None => same_fields d1 d2
  | Some off1, Some off2 =>
      if (off1 =? off2)%Z then same_fields d1 d2
      else (utc_us d1 =? utc_us d2)%Z
  | _, _ => false
  end.

End Calendar.

(** Half past ten in UTC, and the same point in time an hour east. *)
Definition half_past_ten_utc : Datetime.datetime :=
  Datetime.mk_datetime 2024 1 15 10 30 0 0 (Some 0%Z).

Definition half_past_eleven_east : Datetime.datetime :=
  Datetime.mk_datetime 2024 1 15 11 30 0 0 (Some 3600000000%Z).

(* ================================================================= *)
(** ** Python text: characters, slices, search *)

Module Text.

(** A byte that continues a character of the UTF-8 form of a text. *)
Definition is_continuation (c : ascii) : bool :=
  ((128 <=? N_of_ascii c) && (N_of_ascii c <? 192))%N.

(** [len(s)]: the number of characters. *)
Fixpoint char_len (s : string) : nat :=
  match s with
  | EmptyString => O
  | String c rest =>
      if is_continuation c then char_len rest else S (char_len rest)
  end.

(** [s[:n]]: the first [n] characters, each with the bytes that continue
    it. *)
Fixpoint take_chars (n : nat) (s : string) : string :=
  match s with
  | EmptyString => EmptyString
  | String c rest =>
      if is_continuation c then String c (take_chars n rest)
      else
        match n with
        | O => EmptyString
        | S n' => String c (take_chars n' rest)
        end
  end.

(** [s2.startswith(s1)]. *)
Fixpoint starts_with (s1 s2 : string) : bool :=
  match s1, s2 with
  | EmptyString, _ => true
  | String a s1', String b s2' => Ascii.eqb a b && starts_with s1' s2'
  | String _ _, EmptyString => false
  end.

(** [needle in hay]. *)
Fixpoint contains (needle hay : string) : bool :=
  starts_with needle hay
  || match hay with
     | EmptyString => false
     | String _ rest => contains needle rest
     end.

(** [s2.endswith(s1)]. *)
Fixpoint ends_with (s1 s2 : string) : bool :=
  String.eqb s1 s2
  || match s2 with
     | EmptyString => false
     | String _ rest => ends_with s1 rest
     end.

End Text.

(* ================================================================= *)
(** ** [simulate_yaml_issues] of [test_deployment_yaml.py] *)

(** [type(obj).__name__]. *)
Definition type_name (s : scalar) : string :=
  match s with
  | PyStr _ => "str"
  | PyInt _ => "int"
  | PyFloat _ => "float"
  | PyBool _ => "bool"
  | PyNone => "NoneType"
  | PyDatetime _ => "datetime"
  | PyBytes _ => "bytes"
  | PyPath _ => "PosixPath"
  end.

(** [bool(obj)], as the test [if path] takes it. *)
Definition truthy (s : scalar) : bool :=
  match s with
  | PyStr t => negb (Pathlib.is_empty t)
  | PyInt n => negb (n =? 0)%Z
  | PyFloat (SpecFloat.S754_zero _) => false
  | PyFloat _ => true
  | PyBool b => b
  | PyNone => false
  | PyDatetime _ => true
  | PyBytes [] => false
  | PyBytes (_ :: _) => true
  | PyPath _ => true
  end.

(** The type names the checker reports by name. *)
Definition reported_names : list string :=
  ["NSDate"; "datetime"; "NSData"; "bytes"]%string.

(** The leaves the checker reports: datetime and bytes. *)
Definition is_reported (s : scalar) : bool :=
  match s with
  | PyDatetime _ | PyBytes _ => true
  | _ => false
  end.

Definition has_path_leaf (s : scalar) : bool :=
  match s with
  | PyPath _ => true
  | _ => false
  end.

Section YamlIssues.

(** [str(x)] and [repr(x)] of the runtime; [str] of a text is the text. *)
Variable str_of : scalar -> string.
Variable repr_of : scalar -> string.

(** What [{x}] gives in an f-string. *)
Definition format_value (x : scalar) : string :=
  match x with
  | PyStr t => t
  | _ => str_of x
  end.

(** [f"{path}: {obj_type} = {repr(obj)[:50]}..."] *)
Definition issue_line (path obj : scalar) : string :=
  (format_value path ++ ": " ++ type_name obj ++ " = "
     ++ Text.take_chars 50 (repr_of obj) ++ "...")%string.

(** The branch [elif hasattr(obj, '__class__')], which every object takes
    that is neither a dict nor a list. *)
Definition check_leaf (obj path : scalar) (issues : list string)
    : list string :=
  let obj_type := type_name obj in
  if existsb (String.eqb obj_type) reported_names then
    issues ++ [issue_line path obj]
  else if Text.contains "CF" obj_type || Text.contains "NS" obj_type then
    issues ++ [issue_line path obj]
  else issues.

(** [f"{path}.{key}" if path else key] *)
Definition key_path (path key : scalar) : scalar :=
  if truthy path then
    PyStr (format_value path ++ "." ++ format_value key)
  else key.

(** [f"{path}[{i}]"] *)
Definition index_path (path : scalar) (i : N) : scalar :=
  PyStr (format_value path ++ "[" ++ Datetime.decimal i ++ "]").

(** [check_object], with the list [issues] it appends to passed along. *)
Fixpoint check_object (obj : pyobj) (path : scalar) (issues : list string)
    : list string :=
  match obj with
  | PyDict items =>
      (fix each (its : list (scalar * pyobj)) (issues : list string)
           : list string :=
         match its with
         | [] => issues
         | (key, value) :: more =>
             each more (check_object value (key_path path key) issues)
         end) items issues
  | PyList items =>
      (fix each (its : list pyobj) (i : N) (issues : list string)
           : list string :=
         match its with
         | [] => issues
         | value :: more =>
             each more (N.succ i)
               (check_object value (index_path path i) issues)
         end) items 0%N issues
  | Scalar s => check_leaf s path issues
  end.

(** The two loops on their own. *)
Fixpoint check_items (path : scalar) (its : list (scalar * pyobj))
    (issues : list string) : list string :=
  match its with
  | [] => issues
  | (key, value) :: more =>
      check_items path more (check_object value (key_path path key) issues)
  end.

Fixpoint check_elements (path : scalar) (its : list pyobj) (i : N)
    (issues : list string) : list string :=
  match its with
  | [] => issues
  | value :: more =>
      check_elements path more (N.succ i)
        (check_object value (index_path path i) issues)
  end.

(** [simulate_yaml_issues(data, filename)]: the file name is not used. *)
Definition simulate_yaml_issues (data : pyobj) (filename : string)
    : list string :=
  check_object data (PyStr EmptyString) [].

End YamlIssues.

(** [obj] under the keys [keys]: one-item mappings, one inside the
    other. *)
Fixpoint under_keys (keys : list string) (obj : pyobj) : pyobj :=
  match keys with
  | [] => obj
  | k :: more => PyDict [(PyStr k, under_keys more obj)]
  end.

(** The keys joined by dots. *)
Fixpoint dotted (keys : list string) : string :=
  match keys with
  | [] => EmptyString
  | [k] => k
  | k :: more => (k ++ "." ++ dotted more)%string
  end.

(** The path the checker has reached after the keys [keys], from the
    path text [p]. *)
Fixpoint extend_path (p : string) (keys : list string) : string :=
  match keys with
  | [] => p
  | k :: more =>
      extend_path (if Pathlib.is_empty p then k else p ++ "." ++ k)%string
        more
  end.

(** One [str] and [repr] to run the checker on examples: only the kind of
    the object is shown. *)
Definition kind_only (s : scalar) : string :=
  ("<" ++ type_name s ++ ">")%string.

(* ================================================================= *)
(** ** [find_munki_repos] of [test_deployment_yaml.py] *)

Definition possible_paths : list string :=
  [ "/Users/rod/DevOps/Munki/deployment";
    "/Users/rod/DevOps/Munki";
    "/Users/rod/DevOps/munki";
    "/Users/rod/Developer/munki/test_conversion";
    "/Users/rod/Developer/munki/mwa2/test_repo" ]%string.

(** [p / name]: the components of [name] after those of [p], unless
    [name] has a root of its own. *)
Definition joinpath (p : Pathlib.PurePosixPath) (name : string)
    : Pathlib.PurePosixPath :=
  let q := Pathlib._parse_path name in
  if Pathlib.is_empty (Pathlib.root q) then
    Pathlib.mk_path (Pathlib.root p) (Pathlib.tail p ++ Pathlib.tail q)
  else q.

(** What [os.walk] yields: a directory, its sub-directories, its files. *)
Definition walk_entry : Type := (string * list string * list string)%type.

(** ["pkgsinfo" in dirs] *)
Definition has_pkgsinfo (e : walk_entry) : bool :=
  let '(_, dirs, _) := e in existsb (String.eqb "pkgsinfo") dirs.

Section FindRepos.

(** The file system, as the two calls see it: [Path.exists] and the
    entries [os.walk] yields, in its order. *)
Variable path_exists : Pathlib.PurePosixPath -> bool.
Variable os_walk : Pathlib.PurePosixPath -> list walk_entry.

(** The loop over [os.walk(path_obj)], left at the first directory that
    has a [pkgsinfo] sub-directory. *)
Fixpoint walk_loop (entries : list walk_entry)
    (found_repos : list Pathlib.PurePosixPath)
    : list Pathlib.PurePosixPath :=
  match entries with
  | [] => found_repos
  | (root, dirs, files) :: more =>
      if has_pkgsinfo (root, dirs, files) then
        found_repos ++ [joinpath (Pathlib._parse_path root) "pkgsinfo"]
      else walk_loop more found_repos
  end.

(** The body of the loop over [possible_paths]. *)
Definition try_path (found_repos : list Pathlib.PurePosixPath)
    (path : string) : list Pathlib.PurePosixPath :=
  let path_obj := Pathlib._parse_path path in
  if path_exists path_obj then
    let pkgsinfo_path := joinpath path_obj "pkgsinfo" in
    if path_exists pkgsinfo_path then found_repos ++ [pkgsinfo_path]
    else walk_loop (os_walk path_obj) found_repos
  else found_repos.

(** What the candidate [c] can add to the list: [c / "pkgsinfo"] when it
    exists, otherwise the [pkgsinfo] of a directory met while walking [c];
    nothing when [c] does not exist. *)
Definition found_for (c : string) (repo : Pathlib.PurePosixPath) : Prop :=
  last (Pathlib.tail repo) EmptyString = "pkgsinfo"%string
  /\ path_exists (Pathlib._parse_path c) = true
  /\ ((repo = joinpath (Pathlib._parse_path c) "pkgsinfo"
       /\ path_exists repo = true)
      \/ (path_exists (joinpath (Pathlib._parse_path c) "pkgsinfo") = false
          /\ exists root dirs files,
               In (root, dirs, files) (os_walk (Pathlib._parse_path c))
               /\ In "pkgsinfo"%string dirs
               /\ repo = joinpath (Pathlib._parse_path root) "pkgsinfo")).

Definition find_repos_among (paths : list string)
    : list Pathlib.PurePosixPath :=
  fold_left try_path paths [].

Definition find_munki_repos : list Pathlib.PurePosixPath :=
  find_repos_among possible_paths.

End FindRepos.

(** The name of a path: its last component. *)
Definition path_name (p : Pathlib.PurePosixPath) : string :=
  last (Pathlib.tail p) EmptyString.

(** A file system to run the search on: the deployment repository is
    there, and walking its parent meets it first. *)
Definition deployment : Pathlib.PurePosixPath :=
  Pathlib._parse_path "/Users/rod/DevOps/Munki/deployment".

Definition munki_dir : Pathlib.PurePosixPath :=
  Pathlib._parse_path "/Users/rod/DevOps/Munki".

Definition deployed_exists (p : Pathlib.PurePosixPath) : bool :=
  existsb (String.eqb (Pathlib.path_str p))
    [ "/Users/rod/DevOps/Munki/deployment";
      "/Users/rod/DevOps/Munki/deployment/pkgsinfo";
      "/Users/rod/DevOps/Munki" ]%string.

Definition deployed_walk (p : Pathlib.PurePosixPath) : list walk_entry :=
  if String.eqb (Pathlib.path_str p) "/Users/rod/DevOps/Munki" then
    [ ("/Users/rod/DevOps/Munki", ["deployment"], [])%string;
      ("/Users/rod/DevOps/Munki/deployment", ["pkgsinfo"; "catalogs"],
        [])%string;
      ("/Users/rod/DevOps/Munki/deployment/pkgsinfo", [], ["a.plist"])%string;
      ("/Users/rod/DevOps/Munki/deployment/catalogs", [], [])%string ]
  else [].

(** Data whose only unsafe leaf is a path object, and the keys down to a
    blob of the demonstration data. *)
Definition path_only : pyobj :=
  PyDict [(PyStr "package_path", Scalar (PyPath dotted_path))].

Definition blob_keys : list string :=
  ["complex_metadata"; "nested_structure"; "data_blob"]%string.

Definition two_blobs : list scalar :=
  [PyBytes (list_byte_of_string "ab");
   PyDatetime (Datetime.mk_datetime 2024 1 15 10 30 0 0 None)].

(* ================================================================= *)
(** ** The sample of the output that [demonstrate_yaml_issues] prints *)

(** [yaml_output[:400] + "..." if len(yaml_output) > 400 else yaml_output] *)
Definition yaml_sample (yaml_output : string) : string :=
  if (400 <? Text.char_len yaml_output)%nat then
    (Text.take_chars 400 yaml_output ++ "...")%string
  else yaml_output.

(* ================================================================= *)
(** * Properties *)

(** ** Checking a property of the small numbers by running it *)

Lemma all_below_spec (k : N) (P : N -> bool) :
  all_below k P = true -> forall n, n < k -> P n = true.
Proof.
  unfold all_below. induction k as [|k IH] using N.peano_ind; intros H n Hn.
  - lia.
  - rewrite N.recursion_succ in H; [|reflexivity|].
    + apply andb_true_iff in H as [Hk Hrest].
      destruct (N.eq_dec n k) as [->|Hne]; [exact Hk|].
      apply IH; [exact Hrest|lia].
    + intros x y -> a b ->. reflexivity.
Qed.

(** ** Base64 *)

Section Base64Facts.

Import Base64.

Lemma a2b_b2a (i : N) : i < 64 -> a2b (b2a i) = Some i.
Proof.
  intros Hi.
  assert (H : all_below 64
                (fun i => match a2b (b2a i) with
                          | Some j => j =? i
                          | None => false
                          end) = true) by (vm_compute; reflexivity).
  pose proof (all_below_spec _ _ H i Hi) as Hc. cbv beta in Hc.
  destruct (a2b (b2a i)) as [j|]; [|discriminate].
  apply N.eqb_eq in Hc. now subst.
Qed.

Lemma b2a_not_pad (i : N) : i < 64 -> Byte.eqb (b2a i) BASE64_PAD = false.
Proof.
  intros Hi.
  assert (H : all_below 64
                (fun i => negb (Byte.eqb (b2a i) BASE64_PAD)) = true)
    by (vm_compute; reflexivity).
  pose proof (all_below_spec _ _ H i Hi) as Hc. cbv beta in Hc.
  now apply negb_true_iff in Hc.
Qed.

Lemma b2a_ascii (i : N) : i < 64 -> Utf8.between 0x00 0x7F (b2a i) = true.
Proof.
  intros Hi.
  assert (H : all_below 64 (fun i => Utf8.between 0x00 0x7F (b2a i)) = true)
    by (vm_compute; reflexivity).
  exact (all_below_spec _ _ H i Hi).
Qed.

Lemma b2a_is_b64_char (i : N) : i < 64 -> is_b64_char (b2a i) = true.
Proof.
  intros Hi. unfold is_b64_char. now rewrite a2b_b2a.
Qed.

Lemma byte_lt_256 (x : byte) : Byte.to_N x < 256.
Proof. pose proof (Byte.to_N_bounded x). lia. Qed.

(** Linear arithmetic with division and remainder by constants. *)
Ltac divmod := zify; Z.to_euclidean_division_equations; lia.

Lemma sextet_1 a : a < 256 -> a / 4 < 64.
Proof. intros; divmod. Qed.

Lemma sextet_2 a b : b < 256 -> a mod 4 * 16 + b / 16 < 64.
Proof. intros; divmod. Qed.

Lemma sextet_3 b c : c < 256 -> b mod 16 * 4 + c / 64 < 64.
Proof. intros; divmod. Qed.

Lemma sextet_4 c : c mod 64 < 64.
Proof. divmod. Qed.

Lemma sextet_2_last a : a mod 4 * 16 < 64.
Proof. divmod. Qed.

Lemma sextet_3_last b : b mod 16 * 4 < 64.
Proof. divmod. Qed.

Lemma octet_1 a b :
  a < 256 -> b < 256 -> a / 4 * 4 + (a mod 4 * 16 + b / 16) / 16 = a.
Proof. intros; divmod. Qed.

Lemma octet_2 a b c :
  b < 256 -> c < 256 ->
  (a mod 4 * 16 + b / 16) mod 16 * 16 + (b mod 16 * 4 + c / 64) / 4 = b.
Proof. intros; divmod. Qed.

Lemma octet_3 b c :
  c < 256 -> (b mod 16 * 4 + c / 64) mod 4 * 64 + c mod 64 = c.
Proof. intros; divmod. Qed.

(** Lists are taken three elements at a time. *)
Lemma list_ind_3 {A : Type} (P : list A -> Prop) :
  P [] ->
  (forall a, P [a]) ->
  (forall a b, P [a; b]) ->
  (forall a b c rest, P rest -> P (a :: b :: c :: rest)) ->
  forall l, P l.
Proof.
  intros H0 H1 H2 H3.
  fix go 1.
  intros [|a [|b [|c rest]]];
    [exact H0 | apply H1 | apply H2 | apply H3, go].
Qed.

Lemma decode_full_encode (x y z : byte) :
  let a := Byte.to_N x in
  let b := Byte.to_N y in
  let c := Byte.to_N z in
  decode_full (b2a (a / 4)) (b2a (a mod 4 * 16 + b / 16))
    (b2a (b mod 16 * 4 + c / 64)) (b2a (c mod 64)) = Some [x; y; z].
Proof.
  intros a b c.
  pose proof (byte_lt_256 x) as Ha. pose proof (byte_lt_256 y) as Hb.
  pose proof (byte_lt_256 z) as Hc. fold a in Ha. fold b in Hb. fold c in Hc.
  unfold decode_full.
  rewrite (a2b_b2a _ (sextet_1 a Ha)), (a2b_b2a _ (sextet_2 a b Hb)),
    (a2b_b2a _ (sextet_3 b c Hc)), (a2b_b2a _ (sextet_4 c)).
  cbn [obind].
  rewrite (octet_1 a b Ha Hb), (octet_2 a b c Hb Hc), (octet_3 b c Hc).
  unfold a, b, c. now rewrite !Byte.of_to_N.
Qed.

Lemma decode_two_encode (x y : byte) :
  let a := Byte.to_N x in
  let b := Byte.to_N y in
  decode_two (b2a (a / 4)) (b2a (a mod 4 * 16 + b / 16))
    (b2a (b mod 16 * 4)) = Some [x; y].
Proof.
  intros a b.
  pose proof (byte_lt_256 x) as Ha. pose proof (byte_lt_256 y) as Hb.
  fold a in Ha. fold b in Hb.
  unfold decode_two.
  rewrite (a2b_b2a _ (sextet_1 a Ha)), (a2b_b2a _ (sextet_2 a b Hb)),
    (a2b_b2a _ (sextet_3_last b)).
  cbn [obind].
  replace (b mod 16 * 4 mod 4 =? 0) with true
    by (symmetry; apply N.eqb_eq; divmod).
  rewrite (octet_1 a b Ha Hb).
  replace ((a mod 4 * 16 + b / 16) mod 16 * 16 + b mod 16 * 4 / 4) with b
    by divmod.
  unfold a, b. now rewrite !Byte.of_to_N.
Qed.

Lemma decode_one_encode (x : byte) :
  let a := Byte.to_N x in
  decode_one (b2a (a / 4)) (b2a (a mod 4 * 16)) = Some [x].
Proof.
  intros a. pose proof (byte_lt_256 x) as Ha. fold a in Ha.
  unfold decode_one.
  rewrite (a2b_b2a _ (sextet_1 a Ha)), (a2b_b2a _ (sextet_2_last a)).
  cbn [obind].
  replace (a mod 4 * 16 mod 16 =? 0) with true
    by (symmetry; apply N.eqb_eq; divmod).
  replace (a / 4 * 4 + a mod 4 * 16 / 16) with a by divmod.
  unfold a. now rewrite Byte.of_to_N.
Qed.

Lemma pad_is_pad : Byte.eqb BASE64_PAD BASE64_PAD = true.
Proof. reflexivity. Qed.

(** Decoding what was encoded gives the bytes back. *)
Lemma b64decode_b64encode (s : list byte) : b64decode (b64encode s) = Some s.
Proof.
  induction s as [|x|x y|x y z rest IH] using list_ind_3.
  - reflexivity.
  - cbn [b64encode b64decode]. unfold decode_last.
    rewrite pad_is_pad. apply decode_one_encode.
  - cbn [b64encode b64decode]. unfold decode_last.
    rewrite pad_is_pad, (b2a_not_pad _ (sextet_3_last (Byte.to_N y))).
    apply decode_two_encode.
  - cbn [b64encode]. cbn zeta.
    remember (b64encode rest) as tl eqn:Htl.
    cbn [b64decode].
    destruct tl as [|t0 tl'].
    + destruct rest as [|r0 [|r1 [|r2 rest']]]; try discriminate.
      unfold decode_last.
      rewrite (b2a_not_pad _ (sextet_4 (Byte.to_N z))).
      apply decode_full_encode.
    + rewrite decode_full_encode. cbn [obind].
      rewrite IH. reflexivity.
Qed.

(** Four characters for every three bytes, the last group completed. *)
Lemma b64encode_length (s : list byte) :
  List.length (b64encode s) = (4 * ((List.length s + 2) / 3))%nat.
Proof.
  induction s as [|x|x y|x y z rest IH] using list_ind_3;
    try reflexivity.
  cbn [b64encode List.length]. cbn zeta. cbn [List.length]. rewrite IH.
  replace (S (S (S (List.length rest))) + 2)%nat
    with (List.length rest + 2 + 1 * 3)%nat by lia.
  rewrite Nat.div_add by lia. lia.
Qed.

Lemma b64encode_alphabet (s : list byte) :
  forallb is_b64_char (b64encode s) = true.
Proof.
  induction s as [|x|x y|x y z rest IH] using list_ind_3.
  - reflexivity.
  - cbn [b64encode forallb]. cbn zeta.
    rewrite (b2a_is_b64_char _ (sextet_1 _ (byte_lt_256 x))),
      (b2a_is_b64_char _ (sextet_2_last _)).
    reflexivity.
  - cbn [b64encode forallb]. cbn zeta.
    rewrite (b2a_is_b64_char _ (sextet_1 _ (byte_lt_256 x))),
      (b2a_is_b64_char _ (sextet_2 _ _ (byte_lt_256 y))),
      (b2a_is_b64_char _ (sextet_3_last _)).
    reflexivity.
  - cbn [b64encode forallb]. cbn zeta.
    rewrite (b2a_is_b64_char _ (sextet_1 _ (byte_lt_256 x))),
      (b2a_is_b64_char _ (sextet_2 _ _ (byte_lt_256 y))),
      (b2a_is_b64_char _ (sextet_3 _ _ (byte_lt_256 z))),
      (b2a_is_b64_char _ (sextet_4 _)), IH.
    reflexivity.
Qed.

(** The number of [=]: none after whole groups of three bytes, two after
    one byte left over, one after two. *)
Lemma b64encode_padding (s : list byte) :
  padding (b64encode s) = ((3 - List.length s mod 3) mod 3)%nat.
Proof.
  assert (Hne : forall i, i < 64 -> Byte.eqb BASE64_PAD (b2a i) = false).
  { intros i Hi.
    assert (H : all_below 64
                  (fun i => negb (Byte.eqb BASE64_PAD (b2a i))) = true)
      by (vm_compute; reflexivity).
    pose proof (all_below_spec _ _ H i Hi) as Hc. cbv beta in Hc.
    now apply negb_true_iff in Hc. }
  unfold padding.
  induction s as [|x|x y|x y z rest IH] using list_ind_3.
  - reflexivity.
  - cbn [b64encode filter]. cbn zeta.
    rewrite (Hne _ (sextet_1 _ (byte_lt_256 x))), (Hne _ (sextet_2_last _)).
    reflexivity.
  - cbn [b64encode filter]. cbn zeta.
    rewrite (Hne _ (sextet_1 _ (byte_lt_256 x))),
      (Hne _ (sextet_2 _ _ (byte_lt_256 y))), (Hne _ (sextet_3_last _)).
    reflexivity.
  - cbn [b64encode filter]. cbn zeta.
    rewrite (Hne _ (sextet_1 _ (byte_lt_256 x))),
      (Hne _ (sextet_2 _ _ (byte_lt_256 y))),
      (Hne _ (sextet_3 _ _ (byte_lt_256 z))), (Hne _ (sextet_4 _)), IH.
    cbn [List.length].
    replace (S (S (S (List.length rest)))) with (List.length rest + 1 * 3)%nat
      by lia.
    now rewrite Nat.Div0.mod_add.
Qed.

(** Base64 text is ASCII, so decoding it as UTF-8 cannot raise. *)
Lemma ascii_is_utf8 (s : list byte) :
  forallb (Utf8.between 0x00 0x7F) s = true -> Utf8.is_utf8 s = true.
Proof.
  induction s as [|c s IH]; [reflexivity|].
  cbn [forallb Utf8.is_utf8]. intros [Hc Hs]%andb_true_iff.
  rewrite Hc. auto.
Qed.

Lemma b64encode_ascii (s : list byte) :
  forallb (Utf8.between 0x00 0x7F) (b64encode s) = true.
Proof.
  assert (Hpad : Utf8.between 0x00 0x7F BASE64_PAD = true) by reflexivity.
  induction s as [|x|x y|x y z rest IH] using list_ind_3.
  - reflexivity.
  - cbn [b64encode forallb]. cbn zeta.
    rewrite (b2a_ascii _ (sextet_1 _ (byte_lt_256 x))),
      (b2a_ascii _ (sextet_2_last _)), Hpad.
    reflexivity.
  - cbn [b64encode forallb]. cbn zeta.
    rewrite (b2a_ascii _ (sextet_1 _ (byte_lt_256 x))),
      (b2a_ascii _ (sextet_2 _ _ (byte_lt_256 y))),
      (b2a_ascii _ (sextet_3_last _)), Hpad.
    reflexivity.
  - cbn [b64encode forallb]. cbn zeta.
    rewrite (b2a_ascii _ (sextet_1 _ (byte_lt_256 x))),
      (b2a_ascii _ (sextet_2 _ _ (byte_lt_256 y))),
      (b2a_ascii _ (sextet_3 _ _ (byte_lt_256 z))),
      (b2a_ascii _ (sextet_4 _)), IH.
    reflexivity.
Qed.

Lemma decode_b64encode (s : list byte) :
  Utf8.decode (b64encode s) = Ok (string_of_list_byte (b64encode s)).
Proof.
  unfold Utf8.decode.
  now rewrite (ascii_is_utf8 _ (b64encode_ascii s)).
Qed.

End Base64Facts.

(** ** Induction on values *)

Lemma pyobj_ind (P : pyobj -> Prop) :
  (forall s, P (Scalar s)) ->
  (forall items, Forall (fun kv => P (snd kv)) items -> P (PyDict items)) ->
  (forall items, Forall P items -> P (PyList items)) ->
  forall obj, P obj.
Proof.
  intros Hs Hd Hl.
  fix go 1.
  intros [s|items|items].
  - apply Hs.
  - apply Hd. induction items as [|[k v] items IH]; constructor.
    + cbn. apply go.
    + exact IH.
  - apply Hl. induction items as [|v items IH]; constructor.
    + apply go.
    + exact IH.
Qed.

(** ** The sanitizer *)

Section SanitizerFacts.

Variable key_eq : scalar -> scalar -> bool.

Local Abbreviation sanitize := (simulate_swift_sanitize key_eq).
Local Abbreviation dict_loop := (dict_comprehension key_eq sanitize).
Local Abbreviation list_loop := (list_comprehension sanitize).
Local Abbreviation setitem := (dict_setitem key_eq).

Lemma sanitize_dict (items : list (scalar * pyobj)) :
  sanitize (PyDict items) = dict_loop items [].
Proof.
  cbn [simulate_swift_sanitize]. generalize (@nil (scalar * pyobj)).
  induction items as [|[k v] items IH]; intros acc; [reflexivity|].
  cbn [dict_comprehension]. destruct (sanitize v); cbn [bind]; auto.
Qed.

Lemma sanitize_list (items : list pyobj) :
  sanitize (PyList items) = (l <- list_loop items ;; Ok (PyList l)).
Proof.
  cbn [simulate_swift_sanitize].
  apply (f_equal (fun r => l <- r ;; Ok (PyList l))).
  induction items as [|v items IH]; [reflexivity|].
  cbn [list_comprehension]. destruct (sanitize v); cbn [bind]; [|reflexivity].
  now rewrite IH.
Qed.

Lemma sanitize_scalar (s : scalar) :
  sanitize (Scalar s) = Ok (Scalar (leaf_text s)).
Proof.
  destruct s; cbn [simulate_swift_sanitize leaf_text]; try reflexivity.
  now rewrite decode_b64encode.
Qed.

(** *** Storing under a key that is not there yet *)

Lemma setitem_fresh acc k v :
  fresh key_eq k (map fst acc) = true -> setitem acc k v = acc ++ [(k, v)].
Proof.
  unfold fresh. induction acc as [|[k0 v0] acc IH]; [reflexivity|].
  cbn [map fst forallb dict_setitem app].
  intros [Hk Hrest]%andb_true_iff. apply negb_true_iff in Hk.
  rewrite Hk. now rewrite IH.
Qed.

Lemma distinct_keys_fresh earlier k later :
  distinct_keys key_eq (earlier ++ k :: later) = true ->
  fresh key_eq k earlier = true.
Proof.
  unfold fresh. induction earlier as [|k0 earlier IH]; [reflexivity|].
  cbn [app distinct_keys forallb].
  intros [Hk0 Hrest]%andb_true_iff.
  rewrite forallb_app in Hk0. apply andb_true_iff in Hk0 as [_ Hk0].
  cbn [forallb] in Hk0. apply andb_true_iff in Hk0 as [Hk0 _].
  rewrite Hk0. cbn. auto.
Qed.

(** *** The comprehensions, given what each value is turned into *)

Lemma dict_loop_distinct its out :
  Forall2 (fun kv kv' => fst kv' = fst kv /\ sanitize (snd kv) = Ok (snd kv'))
    its out ->
  forall acc,
    distinct_keys key_eq (map fst acc ++ map fst its) = true ->
    dict_loop its acc = Ok (PyDict (acc ++ out)).
Proof.
  induction 1 as [|[k v] [k' v'] its out [Hk Hv] _ IH]; intros acc Hd.
  - cbn. now rewrite app_nil_r.
  - cbn [fst snd] in Hk, Hv. subst k'.
    cbn [dict_comprehension]. rewrite Hv. cbn [bind].
    cbn [map fst] in Hd.
    rewrite (setitem_fresh _ _ _ (distinct_keys_fresh _ _ _ Hd)).
    rewrite IH.
    + now rewrite <- app_assoc.
    + rewrite map_app, <- app_assoc. exact Hd.
Qed.

Lemma list_loop_each its out :
  Forall2 (fun x y => sanitize x = Ok y) its out ->
  list_loop its = Ok out.
Proof.
  induction 1 as [|x y its out Hx _ IH]; [reflexivity|].
  cbn [list_comprehension]. rewrite Hx, IH. reflexivity.
Qed.

(** *** The sanitizer returns, and returns safe leaves *)

Lemma setitem_safe acc k v :
  forallb (fun kv => safe_leaves (snd kv)) acc = true ->
  safe_leaves v = true ->
  forallb (fun kv => safe_leaves (snd kv)) (setitem acc k v) = true.
Proof.
  intros Hacc Hv. induction acc as [|[k0 v0] acc IH]; cbn.
  - now rewrite Hv.
  - cbn in Hacc. apply andb_true_iff in Hacc as [H0 Hacc].
    destruct (key_eq k0 k); cbn.
    + now rewrite Hv.
    + now rewrite H0, IH.
Qed.

Lemma setitem_text acc k v :
  forallb (fun kv => is_text (fst kv) && text_keys (snd kv)) acc = true ->
  is_text k = true -> text_keys v = true ->
  forallb (fun kv => is_text (fst kv) && text_keys (snd kv))
    (setitem acc k v) = true.
Proof.
  intros Hacc Hk Hv. induction acc as [|[k0 v0] acc IH]; cbn.
  - now rewrite Hk, Hv.
  - cbn in Hacc. apply andb_true_iff in Hacc as [H0 Hacc].
    apply andb_true_iff in H0 as [Hk0 Hv0].
    destruct (key_eq k0 k); cbn.
    + now rewrite Hk0, Hv.
    + now rewrite Hk0, Hv0, IH.
Qed.

Lemma dict_loop_safe its :
  Forall (fun kv => returns_safe key_eq (snd kv)) its ->
  forall acc,
    safe_leaves (PyDict acc) = true ->
    exists r, dict_loop its acc = Ok r
              /\ safe_leaves r = true
              /\ (text_keys (PyDict acc) = true ->
                  text_keys (PyDict its) = true -> text_keys r = true).
Proof.
  induction 1 as [|[k v] its (r & Hr & Hsafe & Htext) _ IH]; intros acc Hacc.
  - exists (PyDict acc). cbn [dict_comprehension]. auto.
  - cbn [snd] in Hr, Htext. cbn [dict_comprehension]. rewrite Hr. cbn [bind].
    destruct (IH (setitem acc k r)) as (out & Hout & Hos & Hot).
    { apply setitem_safe; assumption. }
    exists out. repeat split; [exact Hout|exact Hos|].
    intros Ha Hi. cbn [text_keys forallb fst snd] in Hi.
    apply andb_true_iff in Hi as [Hkv Hi].
    apply andb_true_iff in Hkv as [Hk Hv].
    apply Hot; [|exact Hi].
    apply setitem_text; auto.
Qed.

Lemma list_loop_safe its :
  Forall (returns_safe key_eq) its ->
  exists out, list_loop its = Ok out
              /\ forallb safe_leaves out = true
              /\ (forallb text_keys its = true ->
                  forallb text_keys out = true).
Proof.
  induction 1 as [|v its (r & Hr & Hsafe & Htext) _ (out & Hout & Hos & Hot)].
  - exists []. auto.
  - exists (r :: out). cbn [list_comprehension]. rewrite Hr, Hout.
    cbn [bind forallb]. rewrite Hsafe, Hos. repeat split.
    intros [Hv Hi]%andb_true_iff. now rewrite Htext, Hot.
Qed.

Lemma sanitize_returns_safe (obj : pyobj) : returns_safe key_eq obj.
Proof.
  induction obj as [s|items IH|items IH] using pyobj_ind.
  - exists (Scalar (leaf_text s)). rewrite sanitize_scalar.
    repeat split. destruct s; reflexivity.
  - destruct (dict_loop_safe items IH []) as (r & Hr & Hs & Ht);
      [reflexivity|].
    exists r. rewrite sanitize_dict. repeat split; auto.
  - destruct (list_loop_safe items IH) as (out & Hout & Hs & Ht).
    exists (PyList out). rewrite sanitize_list, Hout. repeat split; auto.
Qed.

(** *** On well-formed values the sanitizer is the leaf-wise map *)

Lemma sanitize_map_leaves (obj : pyobj) :
  well_formed key_eq obj = true ->
  sanitize obj = Ok (map_leaves leaf_text obj).
Proof.
  induction obj as [s|items IH|items IH] using pyobj_ind; intros Hwf.
  - apply sanitize_scalar.
  - cbn [well_formed] in Hwf. apply andb_true_iff in Hwf as [Hd Hwf].
    rewrite sanitize_dict. cbn [map_leaves].
    apply (dict_loop_distinct items _) with (acc := []);
      [|exact Hd].
    clear Hd. induction IH as [|[k v] items Hv _ IHitems];
      cbn [map]; constructor.
    + cbn [fst snd] in *. apply andb_true_iff in Hwf as [Hwv _].
      split; [reflexivity|auto].
    + apply IHitems. cbn [forallb] in Hwf.
      now apply andb_true_iff in Hwf as [_ Hwf].
  - cbn [well_formed] in Hwf.
    rewrite sanitize_list. cbn [map_leaves].
    rewrite (list_loop_each items (map (map_leaves leaf_text) items));
      [reflexivity|].
    induction IH as [|v items Hv _ IHitems]; cbn [map]; constructor.
    + cbn [forallb] in Hwf. apply andb_true_iff in Hwf as [Hwv _]. auto.
    + apply IHitems. cbn [forallb] in Hwf.
      now apply andb_true_iff in Hwf as [_ Hwf].
Qed.

(** *** The sanitizer on a bounded call stack *)

Lemma dict_comprehension_ext (f g : pyobj -> result pyobj) its :
  Forall (fun kv => f (snd kv) = g (snd kv)) its ->
  forall acc,
    dict_comprehension key_eq f its acc = dict_comprehension key_eq g its acc.
Proof.
  induction 1 as [|[k v] its Hv _ IH]; intros acc; [reflexivity|].
  cbn [dict_comprehension]. cbn [snd] in Hv. rewrite Hv.
  destruct (g v); cbn [bind]; auto.
Qed.

Lemma list_comprehension_ext (f g : pyobj -> result pyobj) its :
  Forall (fun x => f x = g x) its ->
  list_comprehension f its = list_comprehension g its.
Proof.
  induction 1 as [|v its Hv _ IH]; [reflexivity|].
  cbn [list_comprehension]. now rewrite Hv, IH.
Qed.

Section CallStackFacts.

Variable comprehension_frame : bool.
Variable library_frames : scalar -> nat.

Local Abbreviation run :=
  (sanitize_frames key_eq comprehension_frame library_frames).
Local Abbreviation need := (frames_needed comprehension_frame library_frames).

Lemma dict_frames_loop (items : list (scalar * pyobj)) :
  Forall
    (fun kv =>
       forall room,
         run room (snd kv)
         = if (need (snd kv) <=? room)%nat then sanitize (snd kv)
           else Raise RecursionError) items ->
  forall room acc,
    dict_comprehension key_eq (run room) items acc
    = if (fold_right (fun kv m => Nat.max (need (snd kv)) m) O items
          <=? room)%nat
      then dict_loop items acc
      else Raise RecursionError.
Proof.
  induction 1 as [|[k v] items Hv _ IH]; intros room acc; [reflexivity|].
  cbn [dict_comprehension fold_right snd] in *. rewrite (Hv room).
  destruct (Nat.leb_spec (need v) room) as [Hle|Hgt].
  - destruct (sanitize_returns_safe v) as (r & Hr & _).
    rewrite Hr. cbn [bind]. rewrite IH.
    repeat match goal with
           | |- context [(?a <=? ?b)%nat] => destruct (Nat.leb_spec a b)
           end; (reflexivity || lia).
  - cbn [bind].
    match goal with
    | |- context [(?a <=? ?b)%nat] => destruct (Nat.leb_spec a b)
    end; [lia|reflexivity].
Qed.

Lemma list_frames_loop (items : list pyobj) :
  Forall
    (fun x =>
       forall room,
         run room x
         = if (need x <=? room)%nat then sanitize x
           else Raise RecursionError) items ->
  forall room,
    list_comprehension (run room) items
    = if (fold_right (fun x m => Nat.max (need x) m) O items <=? room)%nat
      then list_loop items
      else Raise RecursionError.
Proof.
  induction 1 as [|v items Hv _ IH]; intros room; [reflexivity|].
  cbn [list_comprehension fold_right]. rewrite (Hv room), IH.
  destruct (Nat.leb_spec (need v) room) as [Hle|Hgt].
  - destruct (sanitize_returns_safe v) as (r & Hr & _).
    rewrite Hr. cbn [bind].
    repeat match goal with
           | |- context [(?a <=? ?b)%nat] => destruct (Nat.leb_spec a b)
           end; (reflexivity || lia).
  - cbn [bind].
    match goal with
    | |- context [(?a <=? ?b)%nat] => destruct (Nat.leb_spec a b)
    end; [lia|reflexivity].
Qed.

(** With room for the frames it needs the run is the sanitizer; with less
    it raises [RecursionError]. *)
Lemma sanitize_frames_run (obj : pyobj) :
  forall room,
    run room obj
    = if (need obj <=? room)%nat then sanitize obj
      else Raise RecursionError.
Proof.
  induction obj as [s|items IH|items IH] using pyobj_ind; intros room.
  - destruct room as [|below]; [reflexivity|].
    destruct s; reflexivity.
  - rewrite sanitize_dict.
    destruct room as [|below]; [reflexivity|].
    cbn [sanitize_frames frames_needed]. unfold comprehension_cost.
    destruct below as [|inside];
      rewrite ?(dict_frames_loop items IH);
      destruct comprehension_frame; cbn [Nat.add Nat.leb];
      repeat match goal with
             | |- context [(?a <=? ?b)%nat] => destruct (Nat.leb_spec a b)
             end; (reflexivity || lia).
  - rewrite sanitize_list.
    destruct room as [|below]; [reflexivity|].
    cbn [sanitize_frames frames_needed]. unfold comprehension_cost.
    destruct below as [|inside];
      rewrite ?(list_frames_loop items IH);
      destruct comprehension_frame; cbn [Nat.add Nat.leb];
      repeat match goal with
             | |- context [(?a <=? ?b)%nat] => destruct (Nat.leb_spec a b)
             end; (reflexivity || lia).
Qed.

(** Every level of nesting costs a call and a comprehension. *)
Lemma frames_needed_nested (n : nat) (obj : pyobj) :
  need (nested n obj)
  = (n * S (comprehension_cost comprehension_frame) + need obj)%nat.
Proof.
  induction n as [|n IH]; [reflexivity|].
  cbn [nested frames_needed fold_right]. rewrite Nat.max_0_r, IH.
  cbn [Nat.mul]. lia.
Qed.

End CallStackFacts.

End SanitizerFacts.

(** ** The leaf-wise map *)

Lemma shape_of_map_leaves (f : scalar -> scalar) (obj : pyobj) :
  shape_of (map_leaves f obj) = shape_of obj.
Proof.
  induction obj as [s|items IH|items IH] using pyobj_ind;
    cbn [map_leaves shape_of]; [reflexivity| |]; f_equal;
    rewrite map_map; apply map_ext_Forall;
    (eapply Forall_impl; [|exact IH]); cbn; intros; congruence.
Qed.

Lemma leaf_text_safe (s : scalar) : safe_scalar s = true -> leaf_text s = s.
Proof. destruct s; (reflexivity || discriminate). Qed.

Lemma map_leaves_safe (obj : pyobj) :
  safe_leaves obj = true -> map_leaves leaf_text obj = obj.
Proof.
  induction obj as [s|items IH|items IH] using pyobj_ind;
    cbn [map_leaves safe_leaves]; intros Hsafe.
  - now rewrite leaf_text_safe.
  - f_equal. induction IH as [|[k v] items Hv _ IHitems]; [reflexivity|].
    cbn [forallb fst snd map] in *.
    apply andb_true_iff in Hsafe as [Hsv Hsafe].
    now rewrite Hv, IHitems.
  - f_equal. induction IH as [|v items Hv _ IHitems]; [reflexivity|].
    cbn [forallb map] in *.
    apply andb_true_iff in Hsafe as [Hsv Hsafe].
    now rewrite Hv, IHitems.
Qed.

(** ** Texts *)

Lemma string_app_assoc (a b c : string) :
  ((a ++ b) ++ c = a ++ (b ++ c))%string.
Proof. induction a as [|x a IH]; cbn; [reflexivity|now rewrite IH]. Qed.

Lemma string_app_nil_r (a : string) : (a ++ EmptyString = a)%string.
Proof. induction a as [|x a IH]; cbn; [reflexivity|now rewrite IH]. Qed.

Lemma string_app_length (a b : string) :
  String.length (a ++ b) = (String.length a + String.length b)%nat.
Proof. induction a as [|x a IH]; cbn; [reflexivity|now rewrite IH]. Qed.

Lemma string_of_list_byte_length (l : list byte) :
  String.length (string_of_list_byte l) = List.length l.
Proof.
  induction l as [|x l IH]; [reflexivity|].
  change (string_of_list_byte (x :: l))
    with (String (ascii_of_byte x) (string_of_list_byte l)).
  cbn [String.length List.length]. now rewrite IH.
Qed.

(** ** Formatting numbers and instants *)

Section DatetimeFacts.

Import Datetime.
Local Open Scope string_scope.

Lemma zeros_snoc (k : nat) : zeros k ++ "0" = zeros (S k).
Proof. induction k as [|k IH]; cbn; [reflexivity|]. now rewrite IH. Qed.

Lemma zero_padded_0 (w : nat) : zero_padded w 0 = zeros w.
Proof.
  induction w as [|w IH]; [reflexivity|].
  cbn [zero_padded]. change (0 / 10)%N with 0%N. rewrite IH.
  apply zeros_snoc.
Qed.

Lemma pow10_succ (k : nat) :
  (10 ^ N.of_nat (S k) = 10 * 10 ^ N.of_nat k)%N.
Proof. rewrite Nat2N.inj_succ. apply N.pow_succ_r'. Qed.

Lemma div10_lt (n : N) (k : nat) :
  (n < 10 ^ N.of_nat (S k) -> n / 10 < 10 ^ N.of_nat k)%N.
Proof.
  rewrite pow10_succ. intros H.
  apply N.Div0.div_lt_upper_bound. exact H.
Qed.

(** With enough fuel the digits, filled with zeros, are the fixed-width
    digits. *)
Lemma digits_zero_padded (fuel : nat) :
  forall (n : N) (w : nat),
    (n < 10 ^ N.of_nat fuel)%N -> (n < 10 ^ N.of_nat (S w))%N ->
    zeros (S w - String.length (digits fuel n)) ++ digits fuel n
    = zero_padded (S w) n.
Proof.
  induction fuel as [|fuel IH]; intros n w Hf Hw.
  - cbn in Hf. assert (n = 0%N) as -> by lia.
    cbn [digits String.length]. rewrite Nat.sub_0_r, string_app_nil_r.
    now rewrite zero_padded_0.
  - cbn [digits]. destruct (n <? 10)%N eqn:Hn.
    + apply N.ltb_lt in Hn.
      cbn [String.length zero_padded].
      replace (n / 10)%N with 0%N by (symmetry; now apply N.div_small).
      rewrite zero_padded_0. now replace (S w - 1)%nat with w by lia.
    + apply N.ltb_ge in Hn.
      destruct w as [|w]; [cbn in Hw; lia|].
      rewrite string_app_length. cbn [String.length].
      replace (S (S w) - (String.length (digits fuel (n / 10)) + 1))%nat
        with (S w - String.length (digits fuel (n / 10)))%nat by lia.
      rewrite <- string_app_assoc.
      rewrite (IH (n / 10)%N w (div10_lt _ _ Hf) (div10_lt _ _ Hw)).
      reflexivity.
Qed.

Lemma decimal_fuel (n : N) : (n < 10 ^ N.of_nat (S (N.to_nat (N.log2 n))))%N.
Proof.
  replace (N.of_nat (S (N.to_nat (N.log2 n)))) with (N.succ (N.log2 n))
    by lia.
  destruct (N.eq_dec n 0) as [->|Hn]; [reflexivity|].
  destruct (N.log2_spec n) as [_ Hlt]; [lia|].
  eapply N.lt_le_trans; [exact Hlt|].
  apply N.pow_le_mono_l. lia.
Qed.

(** A value that fits in [w] digits is printed with exactly [w] digits. *)
Lemma fmt_0d_zero_padded (w : nat) (n : N) :
  (0 < w)%nat -> (n < 10 ^ N.of_nat w)%N -> fmt_0d w n = zero_padded w n.
Proof.
  intros Hw Hn. destruct w as [|w]; [lia|].
  unfold fmt_0d, decimal. cbv zeta.
  apply digits_zero_padded; [apply decimal_fuel|exact Hn].
Qed.

Lemma digit_is_digit (n : N) : is_digit (digit n) = true.
Proof.
  unfold digit.
  assert (H : all_below 10 (fun i => is_digit (ascii_of_N (48 + i))) = true)
    by (vm_compute; reflexivity).
  apply (all_below_spec _ _ H). apply N.mod_lt. lia.
Qed.

Lemma digits_then_succ_r (w : nat) (k : string -> bool) :
  forall s, digits_then (S w) k s = digits_then w (digits_then 1 k) s.
Proof.
  induction w as [|w IH]; intros s; [reflexivity|].
  destruct s as [|c s]; [reflexivity|].
  change (digits_then (S (S w)) k (String c s))
    with (is_digit c && digits_then (S w) k s).
  rewrite IH. reflexivity.
Qed.

(** Reading past a fixed-width number. *)
Lemma digits_then_zero_padded (w : nat) :
  forall (k : string -> bool) (n : N) (rest : string),
    digits_then w k (zero_padded w n ++ rest) = k rest.
Proof.
  induction w as [|w IH]; intros k n rest; [reflexivity|].
  rewrite digits_then_succ_r. cbn [zero_padded].
  rewrite string_app_assoc, IH. cbn [append digits_then].
  now rewrite digit_is_digit.
Qed.

Lemma days_in_month_le (y m : N) : (_days_in_month y m <= 31)%N.
Proof.
  unfold _days_in_month. destruct ((m =? 2) && _is_leap y)%N; [lia|].
  generalize (N.to_nat (m - 1)). intros k. unfold _DAYS_IN_MONTH.
  do 12 (destruct k as [|k]; [cbn; lia|]). destruct k; cbn; lia.
Qed.

(** The bounds of the fields of a [datetime] object. *)
Lemma valid_bounds (d : datetime) :
  valid d = true ->
  (year d < 10 ^ 4 /\ month d < 10 ^ 2 /\ day d < 10 ^ 2
   /\ hour d < 10 ^ 2 /\ minute d < 10 ^ 2 /\ second d < 10 ^ 2
   /\ microsecond d < 10 ^ 6)%N.
Proof.
  unfold valid, MINYEAR, MAXYEAR. intros H.
  apply andb_true_iff in H as [H _].
  repeat (apply andb_true_iff in H as [H ?]).
  pose proof (days_in_month_le (year d) (month d)).
  repeat match goal with
         | E : (_ <=? _)%N = true |- _ => apply N.leb_le in E
         | E : (_ <? _)%N = true |- _ => apply N.ltb_lt in E
         end.
  change (10 ^ 4)%N with 10000%N. change (10 ^ 2)%N with 100%N.
  change (10 ^ 6)%N with 1000000%N. lia.
Qed.

(** The text of a naive instant: date, [T], time, and the fraction when
    the microsecond is not zero. *)
Lemma isoformat_naive (d : datetime) :
  valid d = true -> utcoffset d = None ->
  isoformat d
  = zero_padded 4 (year d) ++ "-" ++ zero_padded 2 (month d) ++ "-"
      ++ zero_padded 2 (day d) ++ "T"
      ++ zero_padded 2 (hour d) ++ ":" ++ zero_padded 2 (minute d) ++ ":"
      ++ zero_padded 2 (second d)
      ++ (if (microsecond d =? 0)%N then EmptyString
          else "." ++ zero_padded 6 (microsecond d)).
Proof.
  intros Hv Hoff.
  destruct (valid_bounds d Hv) as (Hy & Hm & Hd & Hh & Hmi & Hs & Hus).
  unfold isoformat, _format_time. rewrite Hoff. cbn [_format_offset].
  rewrite !fmt_0d_zero_padded by (first [lia | assumption]).
  destruct (microsecond d =? 0)%N;
    now rewrite ?string_app_assoc, ?string_app_nil_r.
Qed.

End DatetimeFacts.

(** ** Paths *)

Section PathlibFacts.

Import Pathlib.
Local Open Scope string_scope.

Lemma split_component (c : string) :
  has_sep c = false -> split c = [c].
Proof.
  induction c as [|x c IH]; [reflexivity|].
  cbn [has_sep split]. intros [Hx Hc]%orb_false_iff.
  now rewrite Hx, IH.
Qed.

Lemma split_component_sep (c rest : string) :
  has_sep c = false -> split (c ++ String sep rest) = c :: split rest.
Proof.
  induction c as [|x c IH]; [reflexivity|].
  cbn [has_sep split append]. intros [Hx Hc]%orb_false_iff.
  now rewrite Hx, IH.
Qed.

Lemma split_join (c : string) (cs : list string) :
  forallb (fun x => negb (has_sep x)) (c :: cs) = true ->
  split (join (c :: cs)) = c :: cs.
Proof.
  revert c. induction cs as [|c' cs IH]; intros c H;
    cbn [forallb] in H; apply andb_true_iff in H as [Hc H];
    apply negb_true_iff in Hc.
  - now apply split_component.
  - change (join (c :: c' :: cs)) with (c ++ String sep (join (c' :: cs))).
    rewrite split_component_sep by exact Hc. now rewrite IH.
Qed.

Lemma filter_all {A : Type} (f : A -> bool) (l : list A) :
  forallb f l = true -> filter f l = l.
Proof.
  induction l as [|x l IH]; [reflexivity|].
  cbn. intros [Hx Hl]%andb_true_iff. now rewrite Hx, IH.
Qed.

Lemma forallb_weaken {A : Type} (f g : A -> bool) (l : list A) :
  (forall x, f x = true -> g x = true) ->
  forallb f l = true -> forallb g l = true.
Proof.
  intros Hfg. induction l as [|x l IH]; [reflexivity|].
  cbn. intros [Hx Hl]%andb_true_iff. now rewrite (Hfg _ Hx), IH.
Qed.

(** The root is read back whenever what follows does not start with a
    slash. *)
Lemma splitroot_root (rt rel : string) :
  (String.eqb rt EmptyString || String.eqb rt "/" || String.eqb rt "//") = true ->
  starts_with_sep rel = false ->
  splitroot (rt ++ rel) = (rt, rel).
Proof.
  intros Hrt Hrel.
  assert (Hcases : rt = EmptyString \/ rt = "/" \/ rt = "//").
  { apply orb_true_iff in Hrt as [Hrt|Hrt];
      [apply orb_true_iff in Hrt as [Hrt|Hrt]|];
      apply String.eqb_eq in Hrt; auto. }
  destruct rel as [|x r].
  - destruct Hcases as [->| [->| ->]]; reflexivity.
  - cbn [starts_with_sep] in Hrel.
    destruct x as [[] [] [] [] [] [] [] []];
      try discriminate Hrel;
      destruct Hcases as [->| [->| ->]]; reflexivity.
Qed.

Lemma join_starts (c : string) (cs : list string) :
  has_sep c = false -> is_empty c = false ->
  starts_with_sep (join (c :: cs)) = false
  /\ is_empty (join (c :: cs)) = false.
Proof.
  destruct c as [|x c]; [discriminate 2|].
  cbn [has_sep]. intros [Hx _]%orb_false_iff _.
  destruct cs; cbn; auto.
Qed.

Lemma is_empty_app (a b : string) :
  is_empty (a ++ b) = is_empty a && is_empty b.
Proof. destruct a; reflexivity. Qed.

(** Parsing the text of a path gives the path back: the text loses
    nothing of the root and of the components. *)
Lemma parse_path_str (p : PurePosixPath) :
  parsed p = true -> _parse_path (path_str p) = p.
Proof.
  destruct p as [rt tl]. unfold parsed. cbn [root tail].
  intros [Hrt Htl]%andb_true_iff.
  assert (Hparts : forallb kept tl = true)
    by (eapply forallb_weaken; [|exact Htl];
        cbn; intros x [H _]%andb_true_iff; exact H).
  assert (Hsep : forallb (fun x => negb (has_sep x)) tl = true)
    by (eapply forallb_weaken; [|exact Htl];
        cbn; intros x [_ H]%andb_true_iff; exact H).
  assert (Hfmt : _format_parsed_parts rt tl = rt ++ join tl).
  { unfold _format_parsed_parts. destruct rt; reflexivity. }
  unfold path_str. cbn [root tail]. rewrite Hfmt.
  destruct tl as [|c cs].
  - (* no component: the root alone, or [.] *)
    cbn [join]. rewrite string_app_nil_r.
    apply orb_true_iff in Hrt as [Hrt|Hrt];
      [apply orb_true_iff in Hrt as [Hrt|Hrt]|];
      apply String.eqb_eq in Hrt; subst rt; reflexivity.
  - cbn [forallb] in Hparts, Hsep.
    apply andb_true_iff in Hparts as [Hc Hparts].
    assert (Hc' := Hc). unfold kept in Hc'.
    apply andb_true_iff in Hc' as [Hne _]. apply negb_true_iff in Hne.
    assert (Hs := Hsep). apply andb_true_iff in Hs as [Hcs _].
    apply negb_true_iff in Hcs.
    destruct (join_starts c cs Hcs Hne) as [Hstart Hnonempty].
    rewrite is_empty_app, Hnonempty, andb_false_r.
    unfold _parse_path.
    rewrite is_empty_app, Hnonempty, andb_false_r.
    rewrite (splitroot_root _ _ Hrt Hstart).
    rewrite (split_join _ _ Hsep).
    rewrite filter_all; [reflexivity|].
    cbn [forallb]. now rewrite Hc, Hparts.
Qed.

End PathlibFacts.

(** ** Leaves *)

Lemma safe_leaves_Forall (obj : pyobj) :
  safe_leaves obj = true -> Forall (fun s => safe_scalar s = true) (leaves obj).
Proof.
  induction obj as [s|items IH|items IH] using pyobj_ind;
    cbn [safe_leaves leaves]; intros Hsafe.
  - now constructor.
  - induction IH as [|[k v] items Hv _ IHitems]; [constructor|].
    cbn [forallb flat_map snd] in *.
    apply andb_true_iff in Hsafe as [Hsv Hsafe].
    apply Forall_app. auto.
  - induction IH as [|v items Hv _ IHitems]; [constructor|].
    cbn [forallb flat_map] in *.
    apply andb_true_iff in Hsafe as [Hsv Hsafe].
    apply Forall_app. auto.
Qed.

Lemma last_char_Z (s : string) : Datetime.last_char (s ++ "Z") = Some "Z"%char.
Proof.
  induction s as [|c s IH]; [reflexivity|].
  cbn [append Datetime.last_char]. rewrite IH.
  destruct (s ++ "Z")%string eqn:E; [|reflexivity].
  destruct s; discriminate E.
Qed.

(* ================================================================= *)
(** * The properties of the specification *)

Section Claims.

Variable key_eq : scalar -> scalar -> bool.

(** C1. Type-closure: for every Value [v] (mappings keyed by text), the
    sanitizer returns a SafeValue: every scalar leaf of the result is text,
    a number, a boolean or null, and no datetime, bytes or path is left
    anywhere in the tree. *)
Theorem sanitize_type_closure (v : pyobj) :
  is_Value v = true ->
  exists r, simulate_swift_sanitize key_eq v = Ok r
            /\ is_SafeValue r = true
            /\ Forall (fun s => safe_scalar s = true) (leaves r).
Proof.
  intros Hv. destruct (sanitize_returns_safe key_eq v) as (r & Hr & Hs & Ht).
  exists r. unfold is_SafeValue. rewrite (Ht Hv), Hs.
  auto using safe_leaves_Forall.
Qed.

(** C2, amended to what the code does.  For every instant the result is the text
    of [isoformat()] followed by [Z], appended unconditionally as the last
    character.  For an instant without UTC offset the text is
    [YYYY-MM-DDTHH:MM:SSZ] when the microsecond is zero and
    [YYYY-MM-DDTHH:MM:SS.ffffffZ] when it is not. *)
Theorem sanitize_instant (d : Datetime.datetime) :
  Datetime.valid d = true ->
  exists s,
    simulate_swift_sanitize key_eq (Scalar (PyDatetime d))
    = Ok (Scalar (PyStr s))
    /\ s = (Datetime.isoformat d ++ "Z")%string
    /\ Datetime.last_char s = Some "Z"%char
    /\ (Datetime.utcoffset d = None ->
        if (Datetime.microsecond d =? 0)%N
        then Datetime.shape_seconds_Z s = true
        else Datetime.shape_micros_Z s = true).
Proof.
  intros Hv. exists (Datetime.isoformat d ++ "Z")%string.
  split; [reflexivity|]. split; [reflexivity|].
  split; [apply last_char_Z|].
  intros Hoff. rewrite (isoformat_naive d Hv Hoff).
  unfold Datetime.shape_seconds_Z, Datetime.shape_micros_Z,
    Datetime.date_time_then, Datetime.lit.
  destruct (Datetime.microsecond d =? 0)%N;
    repeat (rewrite ?string_app_assoc, ?digits_then_zero_padded;
            cbn [append Ascii.eqb Bool.eqb andb]);
    reflexivity.
Qed.

(** C3. Structure preservation: on a value whose dictionaries have
    distinct keys, the result is the same tree with only the leaves
    rewritten: same keys in the same order, same lengths and order of the
    sequences, at every level; an empty mapping gives an empty mapping and
    an empty sequence an empty sequence. *)
Theorem sanitize_preserves_structure (v : pyobj) :
  well_formed key_eq v = true ->
  (exists r, simulate_swift_sanitize key_eq v = Ok r
             /\ r = map_leaves leaf_text v
             /\ shape_of r = shape_of v)
  /\ simulate_swift_sanitize key_eq (PyDict []) = Ok (PyDict [])
  /\ simulate_swift_sanitize key_eq (PyList []) = Ok (PyList []).
Proof.
  intros Hwf. split; [|split; reflexivity].
  exists (map_leaves leaf_text v).
  rewrite (sanitize_map_leaves key_eq v Hwf), shape_of_map_leaves. auto.
Qed.

(** C4. Base64 round-trip: for every byte string the result is its base64
    text: characters of the standard alphabet and [=] only, hence no line
    break, four characters for every three bytes with the last group
    padded; decoding the text gives the bytes back, one for one. *)
Theorem sanitize_bytes_round_trip (b : list byte) :
  exists s,
    simulate_swift_sanitize key_eq (Scalar (PyBytes b)) = Ok (Scalar (PyStr s))
    /\ Base64.b64decode (Utf8.encode s) = Some b
    /\ forallb Base64.is_b64_char (Utf8.encode s) = true
    /\ ~ In "010"%byte (Utf8.encode s)
    /\ String.length s = (4 * ((List.length b + 2) / 3))%nat
    /\ Base64.padding (Utf8.encode s)
       = ((3 - List.length b mod 3) mod 3)%nat.
Proof.
  exists (string_of_list_byte (Base64.b64encode b)).
  unfold Utf8.encode. rewrite list_byte_of_string_of_list_byte.
  split; [apply sanitize_scalar|].
  split; [apply b64decode_b64encode|].
  split; [apply b64encode_alphabet|].
  split.
  - intros Hin.
    pose proof (b64encode_alphabet b) as Hall.
    rewrite forallb_forall in Hall. specialize (Hall _ Hin).
    discriminate Hall.
  - split; [|apply b64encode_padding].
    rewrite <- (b64encode_length b). apply string_of_list_byte_length.
Qed.

(** C5. Idempotence on safe input: a SafeValue (with the distinct keys
    every dictionary has) is returned as it is; so is every safe scalar,
    null included. *)
Theorem sanitize_safe_unchanged (v : pyobj) :
  is_SafeValue v = true -> well_formed key_eq v = true ->
  simulate_swift_sanitize key_eq v = Ok v.
Proof.
  unfold is_SafeValue. intros [_ Hsafe]%andb_true_iff Hwf.
  rewrite (sanitize_map_leaves key_eq v Hwf).
  now rewrite map_leaves_safe.
Qed.

(** C6. The end-to-end scenarios: a blob of three bytes, an instant given
    as the property-list loader gives it (no UTC offset), and the empty
    mapping. *)
Theorem sanitize_scenarios :
  simulate_swift_sanitize key_eq
    (PyDict [(PyStr "blob", Scalar (PyBytes ["000"; "001"; "002"]%byte))])
  = Ok (PyDict [(PyStr "blob", Scalar (PyStr "AAEC"))])
  /\ simulate_swift_sanitize key_eq
       (PyDict [(PyStr "when",
                 Scalar (PyDatetime
                           (Datetime.mk_datetime 2024 1 15 10 30 0 0 None)))])
     = Ok (PyDict [(PyStr "when", Scalar (PyStr "2024-01-15T10:30:00Z"))])
  /\ simulate_swift_sanitize key_eq (PyDict []) = Ok (PyDict []).
Proof. repeat split; reflexivity. Qed.


(** C8. For every path the result is its text, the root followed by the
    components joined by slashes, taken as the path holds them: parsing
    the text gives the same path back, [..] components included, and
    nothing but the path object is consulted. *)
Theorem sanitize_path (p : Pathlib.PurePosixPath) :
  Pathlib.parsed p = true ->
  simulate_swift_sanitize key_eq (Scalar (PyPath p))
  = Ok (Scalar (PyStr (Pathlib.path_str p)))
  /\ Pathlib._parse_path (Pathlib.path_str p) = p
  /\ (Pathlib.tail p <> [] ->
      Pathlib.path_str p
      = (Pathlib.root p ++ Pathlib.join (Pathlib.tail p))%string).
Proof.
  intros Hp. split; [reflexivity|]. split; [now apply parse_path_str|].
  intros Htail. destruct p as [rt [|c cs]]; [contradiction|].
  unfold Pathlib.parsed in Hp. cbn [Pathlib.root Pathlib.tail forallb] in *.
  apply andb_true_iff in Hp as [_ Hp].
  apply andb_true_iff in Hp as [Hc _].
  apply andb_true_iff in Hc as [Hkept Hsep].
  unfold Pathlib.kept in Hkept. apply andb_true_iff in Hkept as [Hne _].
  apply negb_true_iff in Hne, Hsep.
  destruct (join_starts c cs Hsep Hne) as [_ Hnonempty].
  unfold Pathlib.path_str, Pathlib._format_parsed_parts.
  cbn [Pathlib.root Pathlib.tail].
  destruct rt as [|x rt]; cbn [Pathlib.is_empty append].
  - now rewrite Hnonempty.
  - reflexivity.
Qed.

(** C10. Keys are never sanitized: the result of a mapping has the keys
    of the input, the same objects in the same order, whatever their kind,
    each with the sanitized value of its item. *)
Theorem sanitize_keeps_keys (items : list (scalar * pyobj)) :
  distinct_keys key_eq (map fst items) = true ->
  exists items',
    simulate_swift_sanitize key_eq (PyDict items) = Ok (PyDict items')
    /\ map fst items' = map fst items
    /\ Forall2
         (fun kv kv' => simulate_swift_sanitize key_eq (snd kv) = Ok (snd kv'))
         items items'.
Proof.
  intros Hd.
  assert (Hout : exists out,
             Forall2
               (fun kv kv' =>
                  fst kv' = fst kv
                  /\ simulate_swift_sanitize key_eq (snd kv) = Ok (snd kv'))
               items out).
  { clear Hd. induction items as [|[k v] items (out & IH)].
    - exists []. constructor.
    - destruct (sanitize_returns_safe key_eq v) as (r & Hr & _).
      exists ((k, r) :: out). constructor; auto. }
  destruct Hout as (out & Hout). exists out.
  rewrite sanitize_dict.
  rewrite (dict_loop_distinct key_eq items out Hout []) by exact Hd.
  split; [reflexivity|].
  clear Hd. induction Hout as [|kv kv' items out [Hk Hv] _ [IHk IHv]].
  - split; constructor.
  - split; [cbn [map]; now rewrite Hk, IHk|constructor; assumption].
Qed.

End Claims.

(* ================================================================= *)
(** * The properties at work on concrete values *)

(** ** Runs of the library functions *)

Example fmt_0d_pads : Datetime.fmt_0d 4 7 = "0007"%string.
Proof. reflexivity. Qed.

Example fmt_0d_does_not_cut : Datetime.fmt_0d 2 12345 = "12345"%string.
Proof. reflexivity. Qed.

Example decimal_agrees_with_the_printer :
  all_below 3000
    (fun n => String.eqb (Datetime.decimal n)
                (NilZero.string_of_uint (N.to_uint n))) = true.
Proof. vm_compute. reflexivity. Qed.

Example isoformat_with_offset :
  Datetime.isoformat
    (Datetime.mk_datetime 2024 1 15 10 30 0 500 (Some (-19800000000)%Z))
  = "2024-01-15T10:30:00.000500-05:30"%string.
Proof. reflexivity. Qed.

Example b64encode_ab :
  Base64.b64encode (list_byte_of_string "ab") = list_byte_of_string "YWI=".
Proof. reflexivity. Qed.

Example b64decode_rejects_line_breaks :
  Base64.b64decode ["Y"; "W"; "010"; "="]%byte = None.
Proof. reflexivity. Qed.

Example path_is_parsed_once :
  Pathlib.path_str (Pathlib._parse_path "/a/./b//c/../d/")
  = "/a/b/c/../d"%string.
Proof. reflexivity. Qed.

Example path_two_slashes :
  Pathlib._parse_path "//a/b" = Pathlib.mk_path "//" ["a"; "b"]%string
  /\ Pathlib._parse_path "///a/b" = Pathlib.mk_path "/" ["a"; "b"]%string.
Proof. split; reflexivity. Qed.

(** An instant that carries the offset of UTC keeps it in its text, before
    the [Z]. *)
Example instant_with_utc_offset :
  simulate_swift_sanitize same_key
    (Scalar (PyDatetime (Datetime.mk_datetime 2024 1 15 10 30 0 0 (Some 0%Z))))
  = Ok (Scalar (PyStr "2024-01-15T10:30:00+00:00Z")).
Proof. reflexivity. Qed.

(** The fourth scenario of the specification. *)
Example nested_scenario :
  simulate_swift_sanitize same_key
    (PyDict
       [(PyStr "items",
          PyList
            [Scalar (PyBytes (list_byte_of_string "ab"));
             PyDict [(PyStr "t",
                       Scalar (PyDatetime
                                 (Datetime.mk_datetime 2024 1 15 10 30 0 0
                                    None)))]])])
  = Ok (PyDict
          [(PyStr "items",
             PyList
               [Scalar (PyStr "YWI=");
                PyDict [(PyStr "t", Scalar (PyStr "2024-01-15T10:30:00Z"))]])]).
Proof. reflexivity. Qed.

(** Three lists around a leaf need seven frames where a comprehension is
    a function, four where it is not. *)
Example frames_of_three_lists :
  sanitize_frames same_key true (fun _ => O) 6 (nested 3 (Scalar PyNone))
  = Raise RecursionError
  /\ sanitize_frames same_key true (fun _ => O) 7 (nested 3 (Scalar PyNone))
     = Ok (nested 3 (Scalar PyNone))
  /\ sanitize_frames same_key false (fun _ => O) 4 (nested 3 (Scalar PyNone))
     = Ok (nested 3 (Scalar PyNone)).
Proof. repeat split; reflexivity. Qed.

(** A key stored twice would be written once: the comprehension relies on
    the keys of its source being distinct. *)
Example setitem_replaces :
  dict_setitem same_key [(PyStr "a", Scalar (PyInt 1))] (PyStr "a")
    (Scalar (PyInt 2))
  = [(PyStr "a", Scalar (PyInt 2))].
Proof. reflexivity. Qed.

(** ** The properties on these values *)

Lemma sanitize_type_closure_witness :
  is_Value (problematic_data a_clock_reading) = true
  /\ exists r,
       simulate_swift_sanitize same_key (problematic_data a_clock_reading)
       = Ok r
       /\ is_SafeValue r = true
       /\ Forall (fun s => safe_scalar s = true) (leaves r).
Proof.
  split; [reflexivity|].
  apply (sanitize_type_closure same_key (problematic_data a_clock_reading)).
  reflexivity.
Defined.

Lemma sanitize_preserves_structure_witness :
  well_formed same_key (problematic_data a_clock_reading) = true
  /\ (exists r,
        simulate_swift_sanitize same_key (problematic_data a_clock_reading)
        = Ok r
        /\ r = map_leaves leaf_text (problematic_data a_clock_reading)
        /\ shape_of r = shape_of (problematic_data a_clock_reading)).
Proof.
  split; [reflexivity|].
  apply (sanitize_preserves_structure same_key
           (problematic_data a_clock_reading)).
  reflexivity.
Defined.

Lemma sanitize_safe_unchanged_witness :
  is_SafeValue widget = true /\ well_formed same_key widget = true
  /\ simulate_swift_sanitize same_key widget = Ok widget.
Proof.
  split; [reflexivity|]. split; [reflexivity|].
  apply (sanitize_safe_unchanged same_key widget); reflexivity.
Defined.

Lemma sanitize_keeps_keys_witness :
  distinct_keys same_key (map fst odd_keys) = true
  /\ exists items',
       simulate_swift_sanitize same_key (PyDict odd_keys) = Ok (PyDict items')
       /\ map fst items' = map fst odd_keys
       /\ Forall2
            (fun kv kv' =>
               simulate_swift_sanitize same_key (snd kv) = Ok (snd kv'))
            odd_keys items'.
Proof.
  split; [reflexivity|].
  apply (sanitize_keeps_keys same_key odd_keys). reflexivity.
Defined.

Lemma sanitize_instant_witness :
  Datetime.valid a_clock_reading = true
  /\ exists s,
       simulate_swift_sanitize same_key (Scalar (PyDatetime a_clock_reading))
       = Ok (Scalar (PyStr s))
       /\ s = (Datetime.isoformat a_clock_reading ++ "Z")%string
       /\ Datetime.last_char s = Some "Z"%char
       /\ (Datetime.utcoffset a_clock_reading = None ->
           Datetime.shape_micros_Z s = true).
Proof.
  split; [reflexivity|].
  apply (sanitize_instant same_key a_clock_reading). reflexivity.
Defined.

Lemma sanitize_path_witness :
  Pathlib.parsed dotted_path = true
  /\ simulate_swift_sanitize same_key (Scalar (PyPath dotted_path))
     = Ok (Scalar (PyStr "/path/../to/package.pkg"))
  /\ Pathlib._parse_path "/path/../to/package.pkg" = dotted_path.
Proof.
  split; [reflexivity|].
  destruct (sanitize_path same_key dotted_path eq_refl) as (Hs & Hp & _).
  split; [exact Hs|exact Hp].
Defined.

(** ** Where the instant is not printed to the second *)

(** C2 as it is stated fails on a reading of the clock: the microsecond is
    printed, and the text is not of the shape [YYYY-MM-DDTHH:MM:SSZ]. *)
Lemma sanitize_instant_not_to_the_second :
  Datetime.valid a_clock_reading = true
  /\ simulate_swift_sanitize same_key (Scalar (PyDatetime a_clock_reading))
     = Ok (Scalar (PyStr "2025-08-20T14:03:27.123456Z"))
  /\ Datetime.shape_seconds_Z "2025-08-20T14:03:27.123456Z" = false
  /\ ~ (forall d : Datetime.datetime,
          Datetime.valid d = true ->
          exists s,
            simulate_swift_sanitize same_key (Scalar (PyDatetime d))
            = Ok (Scalar (PyStr s))
            /\ Datetime.shape_seconds_Z s = true).
Proof.
  split; [reflexivity|]. split; [reflexivity|]. split; [reflexivity|].
  intros H. destruct (H a_clock_reading eq_refl) as (s & Hs & Hshape).
  injection Hs as <-. discriminate Hshape.
Qed.

(** ** Where the call stack has no room *)


(* ================================================================= *)
(** * Further properties of the code *)

(** ** Texts, continued *)

Lemma starts_with_app (a b : string) : Text.starts_with a (a ++ b) = true.
Proof.
  induction a as [|x a IH]; [reflexivity|].
  cbn [append Text.starts_with]. now rewrite Ascii.eqb_refl, IH.
Qed.

Lemma starts_with_trans (a b c : string) :
  Text.starts_with a b = true -> Text.starts_with b c = true ->
  Text.starts_with a c = true.
Proof.
  revert b c. induction a as [|x a IH]; intros b c Hab Hbc; [reflexivity|].
  destruct b as [|y b]; [discriminate Hab|].
  destruct c as [|z c]; [discriminate Hbc|].
  cbn [Text.starts_with] in *.
  apply andb_true_iff in Hab as [Hxy Hab].
  apply andb_true_iff in Hbc as [Hyz Hbc].
  apply Ascii.eqb_eq in Hxy, Hyz. subst.
  now rewrite Ascii.eqb_refl, (IH _ _ Hab Hbc).
Qed.

(** ** The leaves of a value *)

Lemma Forall_safe_leaves (obj : pyobj) :
  Forall (fun s => safe_scalar s = true) (leaves obj) -> safe_leaves obj = true.
Proof.
  induction obj as [s|items IH|items IH] using pyobj_ind;
    cbn [safe_leaves leaves]; intros Hsafe.
  - now inversion Hsafe.
  - induction IH as [|[k v] items Hv _ IHitems]; [reflexivity|].
    cbn [forallb flat_map snd] in *.
    apply Forall_app in Hsafe as [Hsv Hsafe].
    now rewrite Hv, IHitems.
  - induction IH as [|v items Hv _ IHitems]; [reflexivity|].
    cbn [forallb flat_map] in *.
    apply Forall_app in Hsafe as [Hsv Hsafe].
    now rewrite Hv, IHitems.
Qed.

Lemma leaf_text_fixed (s : scalar) : leaf_text s = s -> safe_scalar s = true.
Proof. destruct s; cbn; (reflexivity || discriminate). Qed.

Lemma map_leaves_fixed (obj : pyobj) :
  map_leaves leaf_text obj = obj -> safe_leaves obj = true.
Proof.
  induction obj as [s|items IH|items IH] using pyobj_ind;
    cbn [map_leaves safe_leaves]; intros Hfix.
  - injection Hfix as Hfix. now apply leaf_text_fixed.
  - injection Hfix as Hfix.
    induction IH as [|[k v] items Hv _ IHitems]; [reflexivity|].
    cbn [map forallb fst snd] in *. injection Hfix as Hfv Hfix.
    now rewrite Hv, IHitems.
  - injection Hfix as Hfix.
    induction IH as [|v items Hv _ IHitems]; [reflexivity|].
    cbn [map forallb] in *. injection Hfix as Hfv Hfix.
    now rewrite Hv, IHitems.
Qed.

Lemma safe_not_reported (l : list scalar) :
  Forall (fun s => safe_scalar s = true) l -> filter is_reported l = [].
Proof.
  induction 1 as [|s l Hs _ IH]; [reflexivity|].
  cbn [filter]. destruct s; try discriminate Hs; exact IH.
Qed.

Lemma not_reported_safe (l : list scalar) :
  filter is_reported l = [] ->
  forallb (fun s => negb (has_path_leaf s)) l = true ->
  Forall (fun s => safe_scalar s = true) l.
Proof.
  induction l as [|s l IH]; [constructor|].
  cbn [filter forallb]. intros Hrep [Hs Hl]%andb_true_iff.
  destruct s; try discriminate Hrep; try discriminate Hs;
    constructor; auto.
Qed.

(** ** The checker of [simulate_yaml_issues] *)

Section YamlIssuesFacts.

Variable str_of : scalar -> string.
Variable repr_of : scalar -> string.

Local Abbreviation check := (check_object str_of repr_of).
Local Abbreviation fmt := (format_value str_of).

Lemma check_object_dict items path issues :
  check (PyDict items) path issues
  = check_items str_of repr_of path items issues.
Proof.
  cbn [check_object]. revert issues.
  induction items as [|[k v] items IH]; intros issues; [reflexivity|].
  cbn [check_items]. apply IH.
Qed.

Lemma check_object_list items path issues :
  check (PyList items) path issues
  = check_elements str_of repr_of path items 0 issues.
Proof.
  cbn [check_object]. generalize 0%N. revert issues.
  induction items as [|v items IH]; intros issues i; [reflexivity|].
  cbn [check_elements]. apply IH.
Qed.

Lemma check_leaf_reported s path issues :
  check_leaf str_of repr_of s path issues
  = if is_reported s then issues ++ [issue_line str_of repr_of path s]
    else issues.
Proof. destruct s; reflexivity. Qed.

(** The checker only appends. *)
Lemma check_object_appends (obj : pyobj) :
  forall path issues, check obj path issues = issues ++ check obj path [].
Proof.
  induction obj as [s|items IH|items IH] using pyobj_ind; intros path issues.
  - cbn [check_object]. rewrite !check_leaf_reported.
    destruct (is_reported s); [reflexivity|now rewrite app_nil_r].
  - rewrite !check_object_dict. revert issues.
    induction IH as [|[k v] items Hv _ IHitems]; intros issues.
    + cbn. now rewrite app_nil_r.
    + cbn [check_items snd] in *.
      rewrite IHitems, (IHitems (check v _ [])), (Hv _ issues).
      now rewrite app_assoc.
  - rewrite !check_object_list. generalize 0%N. revert issues.
    induction IH as [|v items Hv _ IHitems]; intros issues i.
    + cbn. now rewrite app_nil_r.
    + cbn [check_elements].
      rewrite IHitems, (IHitems (check v _ [])), (Hv _ issues).
      now rewrite app_assoc.
Qed.

Lemma check_items_appends path its issues :
  check_items str_of repr_of path its issues
  = issues ++ check_items str_of repr_of path its [].
Proof.
  revert issues. induction its as [|[k v] its IH]; intros issues.
  - cbn. now rewrite app_nil_r.
  - cbn [check_items].
    rewrite IH, (IH (check v _ [])), (check_object_appends v _ issues).
    now rewrite app_assoc.
Qed.

Lemma check_elements_appends path its i issues :
  check_elements str_of repr_of path its i issues
  = issues ++ check_elements str_of repr_of path its i [].
Proof.
  revert i issues. induction its as [|v its IH]; intros i issues.
  - cbn. now rewrite app_nil_r.
  - cbn [check_elements].
    rewrite IH, (IH _ (check v _ [])), (check_object_appends v _ issues).
    now rewrite app_assoc.
Qed.

(** One issue for every datetime or bytes leaf, and for no other. *)
Lemma check_object_count (obj : pyobj) :
  forall path,
    List.length (check obj path [])
    = List.length (filter is_reported (leaves obj)).
Proof.
  induction obj as [s|items IH|items IH] using pyobj_ind; intros path.
  - cbn [check_object leaves filter]. rewrite check_leaf_reported.
    destruct (is_reported s); reflexivity.
  - rewrite check_object_dict. cbn [leaves].
    induction IH as [|[k v] items Hv _ IHitems]; [reflexivity|].
    cbn [check_items flat_map snd] in *.
    rewrite check_items_appends, filter_app, !length_app.
    now rewrite Hv, IHitems.
  - rewrite check_object_list. cbn [leaves]. generalize 0%N.
    induction IH as [|v items Hv _ IHitems]; intros i; [reflexivity|].
    cbn [check_elements flat_map].
    rewrite check_elements_appends, filter_app, !length_app.
    now rewrite Hv, IHitems.
Qed.

(** Under a path that counts as true, every issue is labelled with a text
    that starts with the path. *)
Lemma check_object_labels (obj : pyobj) :
  forall path,
    truthy path = true ->
    Forall (fun line => Text.starts_with (fmt path) line = true)
      (check obj path []).
Proof.
  assert (Hchild : forall path (suffix : string),
             truthy (PyStr (fmt path ++ suffix)) = true
             \/ suffix = EmptyString).
  { intros path suffix. destruct suffix; [now right|left].
    cbn [truthy]. rewrite is_empty_app. cbn. now rewrite andb_false_r. }
  assert (Hunder : forall path (suffix : string) l,
             Forall (fun line =>
                       Text.starts_with (fmt (PyStr (fmt path ++ suffix))) line
                       = true) l ->
             Forall (fun line => Text.starts_with (fmt path) line = true) l).
  { intros path suffix l. apply Forall_impl. intros line.
    apply starts_with_trans. cbn [format_value]. apply starts_with_app. }
  induction obj as [s|items IH|items IH] using pyobj_ind; intros path Hpath.
  - cbn [check_object]. rewrite check_leaf_reported.
    destruct (is_reported s); [|constructor].
    constructor; [|constructor]. apply starts_with_app.
  - rewrite check_object_dict.
    induction IH as [|[k v] items Hv _ IHitems]; [constructor|].
    cbn [check_items snd] in *.
    rewrite check_items_appends. apply Forall_app. split; [|exact IHitems].
    unfold key_path. rewrite Hpath.
    apply (Hunder path ("." ++ fmt k)%string).
    apply Hv. destruct (Hchild path ("." ++ fmt k)%string) as [H|H];
      [exact H|discriminate H].
  - rewrite check_object_list. generalize 0%N.
    induction IH as [|v items Hv _ IHitems]; intros i; [constructor|].
    cbn [check_elements].
    rewrite check_elements_appends. apply Forall_app. split; [|apply IHitems].
    unfold index_path.
    apply (Hunder path ("[" ++ Datetime.decimal i ++ "]")%string).
    apply Hv.
    destruct (Hchild path ("[" ++ Datetime.decimal i ++ "]")%string) as [H|H];
      [exact H|discriminate H].
Qed.

Lemma check_under_keys (keys : list string) (obj : pyobj) :
  forall p issues,
    check (under_keys keys obj) (PyStr p) issues
    = check obj (PyStr (extend_path p keys)) issues.
Proof.
  induction keys as [|k keys IH]; intros p issues; [reflexivity|].
  cbn [under_keys extend_path]. rewrite check_object_dict.
  cbn [check_items]. unfold key_path. cbn [truthy format_value].
  destruct (Pathlib.is_empty p); cbn [negb]; apply IH.
Qed.

Lemma extend_path_dotted (keys : list string) :
  forall p k,
    forallb (fun x => negb (Pathlib.is_empty x)) (k :: keys) = true ->
    extend_path p (k :: keys)
    = ((if Pathlib.is_empty p then EmptyString else p ++ ".")
         ++ dotted (k :: keys))%string.
Proof.
  induction keys as [|k2 keys IH]; intros p k Hne.
  - cbn [extend_path dotted].
    destruct (Pathlib.is_empty p); [reflexivity|].
    now rewrite string_app_assoc.
  - cbn [forallb] in Hne. apply andb_true_iff in Hne as [Hk Hne].
    apply negb_true_iff in Hk.
    change (extend_path p (k :: k2 :: keys))
      with (extend_path
              (if Pathlib.is_empty p then k else p ++ "." ++ k)%string
              (k2 :: keys)).
    rewrite (IH _ k2 Hne).
    change (dotted (k :: k2 :: keys))
      with (k ++ "." ++ dotted (k2 :: keys))%string.
    destruct (Pathlib.is_empty p) eqn:Hp.
    + rewrite Hk. cbn [append]. now rewrite string_app_assoc.
    + rewrite is_empty_app, Hp. cbn [andb append].
      now rewrite !string_app_assoc.
Qed.

Lemma check_elements_nth (ss : list scalar) :
  forallb is_reported ss = true ->
  forall path j i s,
    nth_error ss i = Some s ->
    nth_error (check_elements str_of repr_of path (map Scalar ss) j []) i
    = Some (issue_line str_of repr_of
              (index_path str_of path (j + N.of_nat i)) s).
Proof.
  induction ss as [|s0 ss IH]; intros Hall path j i s Hi.
  - destruct i; discriminate Hi.
  - cbn [forallb] in Hall. apply andb_true_iff in Hall as [Hs0 Hall].
    cbn [map check_elements check_object].
    rewrite check_leaf_reported, Hs0, check_elements_appends. cbn [app].
    destruct i as [|i].
    + injection Hi as <-. cbn [nth_error]. now rewrite N.add_0_r.
    + cbn [nth_error] in *. rewrite (IH Hall path (N.succ j) i s Hi).
      do 3 f_equal. lia.
Qed.

End YamlIssuesFacts.

Section YamlIssuesProperties.

Variable str_of : scalar -> string.
Variable repr_of : scalar -> string.
Variable key_eq : scalar -> scalar -> bool.

(** The checker reports one issue for each datetime leaf and each bytes
    leaf of the data, and none for any other leaf: a path object is never
    reported. *)
Theorem issues_count (data : pyobj) (filename : string) :
  List.length (simulate_yaml_issues str_of repr_of data filename)
  = List.length (filter is_reported (leaves data)).
Proof. apply check_object_count. Qed.


(** For data without path objects (all that a property list holds) the
    checker reports nothing exactly when the sanitizer changes nothing. *)
Theorem no_issue_iff_unchanged (data : pyobj) (filename : string) :
  well_formed key_eq data = true ->
  forallb (fun s => negb (has_path_leaf s)) (leaves data) = true ->
  simulate_yaml_issues str_of repr_of data filename = []
  <-> simulate_swift_sanitize key_eq data = Ok data.
Proof.
  intros Hwf Hpaths. rewrite (sanitize_map_leaves key_eq data Hwf). split.
  - intros Hnone. f_equal. apply map_leaves_safe, Forall_safe_leaves.
    apply not_reported_safe; [|exact Hpaths].
    apply length_zero_iff_nil.
    rewrite <- (check_object_count str_of repr_of data (PyStr EmptyString)).
    unfold simulate_yaml_issues in Hnone. now rewrite Hnone.
  - intros Hfix. injection Hfix as Hfix.
    apply length_zero_iff_nil. unfold simulate_yaml_issues.
    rewrite check_object_count.
    rewrite (safe_not_reported (leaves data)); [reflexivity|].
    apply safe_leaves_Forall, map_leaves_fixed, Hfix.
Qed.

(** The checker misses what only the sanitizer converts: data whose
    unsafe leaves are all path objects is reported clean, and the sanitizer
    does not return it unchanged. *)
Theorem path_leaves_escape_the_checker (data : pyobj) (filename : string) :
  well_formed key_eq data = true ->
  filter is_reported (leaves data) = [] ->
  existsb has_path_leaf (leaves data) = true ->
  simulate_yaml_issues str_of repr_of data filename = []
  /\ simulate_swift_sanitize key_eq data <> Ok data.
Proof.
  intros Hwf Hrep Hpath. split.
  - apply length_zero_iff_nil.
    unfold simulate_yaml_issues. rewrite check_object_count. now rewrite Hrep.
  - rewrite (sanitize_map_leaves key_eq data Hwf). intros Hfix.
    injection Hfix as Hfix.
    pose proof (safe_leaves_Forall data (map_leaves_fixed data Hfix)) as Hsafe.
    apply existsb_exists in Hpath as (s & Hin & Hs).
    rewrite Forall_forall in Hsafe. specialize (Hsafe s Hin).
    destruct s; discriminate.
Qed.

(** The checker only appends to the issues it is given, whatever the
    path, the empty one of the first call included; and when the path
    counts as true, the label of every issue it appends starts with that
    path. *)
Theorem issues_labelled_under_path (obj : pyobj) (path : scalar)
    (issues : list string) :
  exists new,
    check_object str_of repr_of obj path issues = issues ++ new
    /\ (truthy path = true ->
        Forall
          (fun line =>
             Text.starts_with (format_value str_of path) line = true) new).
Proof.
  exists (check_object str_of repr_of obj path []).
  split; [apply check_object_appends|apply check_object_labels].
Qed.

(** A reported leaf that lies under the text keys [k1], ..., [kn], none of
    them empty, is labelled [k1.k2. ... .kn], followed by its type name and
    the first fifty characters of its [repr]. *)
Theorem issue_label_is_dotted_keys (keys : list string) (s : scalar)
    (filename : string) :
  forallb (fun k => negb (Pathlib.is_empty k)) keys = true ->
  is_reported s = true ->
  simulate_yaml_issues str_of repr_of (under_keys keys (Scalar s)) filename
  = [(dotted keys ++ ": " ++ type_name s ++ " = "
        ++ Text.take_chars 50 (repr_of s) ++ "...")%string].
Proof.
  intros Hkeys Hs. unfold simulate_yaml_issues.
  rewrite check_under_keys. cbn [check_object].
  rewrite check_leaf_reported, Hs. cbn [app]. unfold issue_line.
  cbn [format_value]. destruct keys as [|k keys]; [reflexivity|].
  now rewrite (extend_path_dotted keys EmptyString k Hkeys).
Qed.

(** The reported elements of a list are labelled with their position,
    counted from zero: element [i] of a top-level list is labelled [[i]]. *)
Theorem issue_label_is_index (ss : list scalar) (filename : string)
    (i : nat) (s : scalar) :
  forallb is_reported ss = true ->
  nth_error ss i = Some s ->
  nth_error
    (simulate_yaml_issues str_of repr_of (PyList (map Scalar ss)) filename) i
  = Some ("[" ++ Datetime.decimal (N.of_nat i) ++ "]: " ++ type_name s
            ++ " = " ++ Text.take_chars 50 (repr_of s) ++ "...")%string.
Proof.
  intros Hall Hi. unfold simulate_yaml_issues.
  rewrite check_object_list.
  rewrite (check_elements_nth str_of repr_of ss Hall _ 0%N i s Hi).
  rewrite N.add_0_l. unfold issue_line, index_path. f_equal.
  cbn [format_value append].
  repeat (rewrite string_app_assoc; cbn [append]).
  reflexivity.
Qed.

End YamlIssuesProperties.

(** ** The search for repositories *)

Section FindReposFacts.

Variable path_exists : Pathlib.PurePosixPath -> bool.
Variable os_walk : Pathlib.PurePosixPath -> list walk_entry.

Local Abbreviation parse := Pathlib._parse_path.
Local Abbreviation try := (try_path path_exists os_walk).

Lemma joinpath_pkgsinfo (p : Pathlib.PurePosixPath) :
  joinpath p "pkgsinfo"
  = Pathlib.mk_path (Pathlib.root p) (Pathlib.tail p ++ ["pkgsinfo"%string]).
Proof. reflexivity. Qed.

Lemma path_name_pkgsinfo (p : Pathlib.PurePosixPath) :
  path_name (joinpath p "pkgsinfo") = "pkgsinfo"%string.
Proof.
  rewrite joinpath_pkgsinfo. unfold path_name. cbn [Pathlib.tail].
  apply last_last.
Qed.

(** The walk stops at the first entry with a [pkgsinfo] sub-directory. *)
Lemma walk_loop_find (entries : list walk_entry) found :
  walk_loop entries found
  = match find has_pkgsinfo entries with
    | Some (root, _, _) => found ++ [joinpath (parse root) "pkgsinfo"]
    | None => found
    end.
Proof.
  induction entries as [|[[root dirs] files] entries IH]; [reflexivity|].
  cbn [walk_loop find]. destruct (has_pkgsinfo (root, dirs, files)); auto.
Qed.

Lemma has_pkgsinfo_In root dirs files :
  has_pkgsinfo (root, dirs, files) = true -> In "pkgsinfo"%string dirs.
Proof.
  cbn [has_pkgsinfo]. intros (x & Hin & Hx)%existsb_exists.
  apply String.eqb_eq in Hx. now subst.
Qed.

Lemma try_path_adds (found : list Pathlib.PurePosixPath) (c : string) :
  exists l,
    try found c = found ++ l
    /\ (List.length l <= if path_exists (parse c) then 1 else 0)%nat
    /\ Forall (found_for path_exists os_walk c) l.
Proof.
  unfold try_path. destruct (path_exists (parse c)) eqn:Hc.
  - destruct (path_exists (joinpath (parse c) "pkgsinfo")) eqn:Hdirect.
    + exists [joinpath (parse c) "pkgsinfo"].
      split; [reflexivity|]. split; [cbn; lia|].
      constructor; [|constructor].
      split; [apply path_name_pkgsinfo|]. split; [exact Hc|]. now left.
    + rewrite walk_loop_find.
      destruct (find has_pkgsinfo (os_walk (parse c)))
        as [[[root dirs] files]|] eqn:Hfind.
      * exists [joinpath (parse root) "pkgsinfo"].
        split; [reflexivity|]. split; [cbn; lia|].
        constructor; [|constructor].
        split; [apply path_name_pkgsinfo|]. split; [exact Hc|]. right.
        split; [exact Hdirect|]. apply find_some in Hfind as [Hin Hhas].
        exists root, dirs, files. eauto using has_pkgsinfo_In.
      * exists []. rewrite app_nil_r.
        split; [reflexivity|]. split; [cbn; lia|constructor].
  - exists []. rewrite app_nil_r.
    split; [reflexivity|]. split; [cbn; lia|constructor].
Qed.

Lemma find_repos_adds (paths : list string) :
  forall found,
  exists l,
    fold_left try paths found = found ++ l
    /\ (List.length l
        <= List.length (filter (fun c => path_exists (parse c)) paths))%nat
    /\ Forall
         (fun repo =>
            exists c, In c paths /\ found_for path_exists os_walk c repo) l.
Proof.
  induction paths as [|c paths IH]; intros found.
  - exists []. rewrite app_nil_r. repeat split; auto.
  - cbn [fold_left filter].
    destruct (try_path_adds found c) as (l1 & -> & Hlen1 & Hfor1).
    destruct (IH (found ++ l1)) as (l2 & -> & Hlen2 & Hfor2).
    exists (l1 ++ l2). rewrite app_assoc. split; [reflexivity|]. split.
    + rewrite length_app.
      destruct (path_exists (parse c)); cbn [List.length]; lia.
    + apply Forall_app. split.
      * eapply Forall_impl; [|exact Hfor1]. intros repo H.
        exists c. split; [now left|exact H].
      * eapply Forall_impl; [|exact Hfor2]. intros repo (c' & Hin & H).
        exists c'. split; [now right|exact H].
Qed.

Lemma find_repos_keeps (paths : list string) found repo :
  In repo found -> In repo (fold_left try paths found).
Proof.
  intros Hin. destruct (find_repos_adds paths found) as (l & -> & _).
  apply in_or_app. now left.
Qed.

Lemma try_path_finds (found : list Pathlib.PurePosixPath) (c : string) :
  path_exists (parse c) = true ->
  path_exists (joinpath (parse c) "pkgsinfo") = true
  \/ existsb has_pkgsinfo (os_walk (parse c)) = true ->
  exists repo,
    try found c = found ++ [repo]
    /\ found_for path_exists os_walk c repo
    /\ (path_exists (joinpath (parse c) "pkgsinfo") = true ->
        repo = joinpath (parse c) "pkgsinfo").
Proof.
  intros Hc Hsome. unfold try_path. rewrite Hc.
  destruct (path_exists (joinpath (parse c) "pkgsinfo")) eqn:Hdirect.
  - exists (joinpath (parse c) "pkgsinfo").
    split; [reflexivity|]. split; [|reflexivity].
    split; [apply path_name_pkgsinfo|]. split; [exact Hc|]. now left.
  - destruct Hsome as [Hsome|Hsome]; [discriminate Hsome|].
    rewrite walk_loop_find.
    destruct (find has_pkgsinfo (os_walk (parse c)))
      as [[[root dirs] files]|] eqn:Hfind.
    + exists (joinpath (parse root) "pkgsinfo").
      split; [reflexivity|]. split; [|intros H; discriminate H].
      split; [apply path_name_pkgsinfo|]. split; [exact Hc|]. right.
      split; [exact Hdirect|]. apply find_some in Hfind as [Hin Hhas].
      exists root, dirs, files. eauto using has_pkgsinfo_In.
    + apply existsb_exists in Hsome as (e & Hin & He).
      now rewrite (find_none _ _ Hfind e Hin) in He.
Qed.

End FindReposFacts.

Section FindReposProperties.

Variable path_exists : Pathlib.PurePosixPath -> bool.
Variable os_walk : Pathlib.PurePosixPath -> list walk_entry.

(** At most one repository is found for each candidate path that exists,
    so at most five, and none when no candidate exists. *)
Theorem find_munki_repos_bound :
  (List.length (find_munki_repos path_exists os_walk)
   <= List.length
        (filter (fun c => path_exists (Pathlib._parse_path c)) possible_paths)
   <= 5)%nat.
Proof.
  split.
  - destruct (find_repos_adds path_exists os_walk possible_paths [])
      as (l & Hl & Hlen & _).
    unfold find_munki_repos, find_repos_among. rewrite Hl. exact Hlen.
  - etransitivity; [apply filter_length_le|]. reflexivity.
Qed.

(** Every repository found is named [pkgsinfo] and comes from a candidate
    that exists: it is the candidate's own [pkgsinfo], which exists, or,
    when that does not exist, the [pkgsinfo] of a directory that the walk
    of the candidate met with a [pkgsinfo] among its sub-directories. *)
Theorem find_munki_repos_sound (repo : Pathlib.PurePosixPath) :
  In repo (find_munki_repos path_exists os_walk) ->
  exists c, In c possible_paths /\ found_for path_exists os_walk c repo.
Proof.
  destruct (find_repos_adds path_exists os_walk possible_paths [])
    as (l & Hl & _ & Hfor).
  unfold find_munki_repos, find_repos_among. rewrite Hl. cbn [app].
  rewrite Forall_forall in Hfor. apply Hfor.
Qed.

(** Every candidate that exists and has a [pkgsinfo], its own or one the
    walk meets, gives a repository in the list: its own when that exists. *)
Theorem find_munki_repos_complete (c : string) :
  In c possible_paths ->
  path_exists (Pathlib._parse_path c) = true ->
  path_exists (joinpath (Pathlib._parse_path c) "pkgsinfo") = true
  \/ existsb has_pkgsinfo (os_walk (Pathlib._parse_path c)) = true ->
  exists repo,
    In repo (find_munki_repos path_exists os_walk)
    /\ found_for path_exists os_walk c repo
    /\ (path_exists (joinpath (Pathlib._parse_path c) "pkgsinfo") = true ->
        repo = joinpath (Pathlib._parse_path c) "pkgsinfo").
Proof.
  intros Hin Hc Hsome. unfold find_munki_repos, find_repos_among.
  generalize (@nil Pathlib.PurePosixPath).
  induction possible_paths as [|c' paths IH]; [contradiction|].
  intros found. cbn [fold_left]. destruct Hin as [->|Hin].
  - destruct (try_path_finds path_exists os_walk found c Hc Hsome)
      as (repo & -> & Hfor & Hown).
    exists repo. split; [|auto].
    apply find_repos_keeps, in_or_app. right. now left.
  - apply IH, Hin.
Qed.

(** The list is not freed of repetitions: when the deployment directory
    has its [pkgsinfo] and the walk of its parent meets it first, the same
    repository is listed twice. *)
Theorem find_munki_repos_repeats (root : string) (dirs files : list string) :
  path_exists deployment = true ->
  path_exists (joinpath deployment "pkgsinfo") = true ->
  path_exists munki_dir = true ->
  path_exists (joinpath munki_dir "pkgsinfo") = false ->
  find has_pkgsinfo (os_walk munki_dir) = Some (root, dirs, files) ->
  Pathlib._parse_path root = deployment ->
  (exists rest,
     find_munki_repos path_exists os_walk
     = joinpath deployment "pkgsinfo" :: joinpath deployment "pkgsinfo"
         :: rest)
  /\ ~ NoDup (find_munki_repos path_exists os_walk).
Proof.
  intros Hdep Hrepo Hmunki Hnone Hfind Hroot.
  assert (Hlist : exists rest,
             find_munki_repos path_exists os_walk
             = joinpath deployment "pkgsinfo"
                 :: joinpath deployment "pkgsinfo" :: rest).
  { unfold find_munki_repos, find_repos_among, possible_paths.
    match goal with
    | |- context [fold_left ?f (?p1 :: ?p2 :: ?paths) ?found] =>
        change (fold_left f (p1 :: p2 :: paths) found)
          with (fold_left f paths (f (f found p1) p2))
    end.
    assert (H1 : try_path path_exists os_walk []
                   "/Users/rod/DevOps/Munki/deployment"
                 = [joinpath deployment "pkgsinfo"]).
    { unfold try_path. fold deployment. now rewrite Hdep, Hrepo. }
    rewrite H1.
    assert (H2 : try_path path_exists os_walk [joinpath deployment "pkgsinfo"]
                   "/Users/rod/DevOps/Munki"
                 = [joinpath deployment "pkgsinfo";
                    joinpath deployment "pkgsinfo"]).
    { unfold try_path. fold munki_dir.
      rewrite Hmunki, Hnone, walk_loop_find, Hfind, Hroot. reflexivity. }
    rewrite H2.
    match goal with
    | |- context [fold_left _ ?paths ?found] =>
        destruct (find_repos_adds path_exists os_walk paths found)
          as (l & -> & _)
    end.
    now exists l. }
  split; [exact Hlist|].
  destruct Hlist as (rest & ->). intros Hnodup.
  inversion Hnodup as [|x l Hnotin _]; subst. apply Hnotin. now left.
Qed.

End FindReposProperties.

(** ** The sample of the output *)

Lemma char_len_app (a b : string) :
  Text.char_len (a ++ b) = (Text.char_len a + Text.char_len b)%nat.
Proof.
  induction a as [|c a IH]; [reflexivity|].
  cbn [append Text.char_len]. destruct (Text.is_continuation c); lia.
Qed.

Lemma char_len_take (s : string) :
  forall n, Text.char_len (Text.take_chars n s) = Nat.min n (Text.char_len s).
Proof.
  induction s as [|c s IH]; intros n; [now rewrite Nat.min_0_r|].
  cbn [Text.take_chars Text.char_len].
  destruct (Text.is_continuation c) eqn:Hc.
  - cbn [Text.char_len]. rewrite Hc. apply IH.
  - destruct n as [|n]; [reflexivity|].
    cbn [Text.char_len]. rewrite Hc, IH. reflexivity.
Qed.

Lemma take_chars_prefix (s : string) :
  forall n, exists rest, s = (Text.take_chars n s ++ rest)%string.
Proof.
  induction s as [|c s IH]; intros n; [now exists EmptyString|].
  cbn [Text.take_chars]. destruct (Text.is_continuation c).
  - destruct (IH n) as (rest & Hrest). exists rest.
    cbn [append]. now rewrite <- Hrest.
  - destruct n as [|n]; [now exists (String c s)|].
    destruct (IH n) as (rest & Hrest). exists rest.
    cbn [append]. now rewrite <- Hrest.
Qed.

(** The sample that is printed has at most 403 characters: an output of at
    most 400 characters is printed whole, a longer one is cut to its first
    400 characters, followed by three dots. *)
Theorem yaml_sample_bound (yaml_output : string) :
  (Text.char_len (yaml_sample yaml_output) <= 403)%nat
  /\ ((Text.char_len yaml_output <= 400)%nat ->
      yaml_sample yaml_output = yaml_output)
  /\ ((400 < Text.char_len yaml_output)%nat ->
      exists shown rest,
        yaml_output = (shown ++ rest)%string
        /\ Text.char_len shown = 400%nat
        /\ yaml_sample yaml_output = (shown ++ "...")%string).
Proof.
  unfold yaml_sample.
  destruct (400 <? Text.char_len yaml_output)%nat eqn:Hlong.
  - apply Nat.ltb_lt in Hlong.
    assert (Hshown : Text.char_len (Text.take_chars 400 yaml_output) = 400%nat)
      by (rewrite char_len_take; lia).
    split; [rewrite char_len_app, Hshown; cbn; lia|].
    split; [lia|]. intros _.
    destruct (take_chars_prefix yaml_output 400) as (rest & Hrest).
    exists (Text.take_chars 400 yaml_output), rest. auto.
  - apply Nat.ltb_ge in Hlong. split; [lia|]. split; [reflexivity|lia].
Qed.

(** ** The sanitizer, applied twice *)

Section SanitizerMore.

Variable key_eq : scalar -> scalar -> bool.

Lemma well_formed_map_leaves (f : scalar -> scalar) (obj : pyobj) :
  well_formed key_eq (map_leaves f obj) = well_formed key_eq obj.
Proof.
  induction obj as [s|items IH|items IH] using pyobj_ind;
    cbn [map_leaves well_formed]; [reflexivity| |].
  - rewrite map_map. cbn [fst]. f_equal.
    induction IH as [|[k v] items Hv _ IHitems]; [reflexivity|].
    cbn [map forallb snd] in *. now rewrite Hv, IHitems.
  - induction IH as [|v items Hv _ IHitems]; [reflexivity|].
    cbn [map forallb]. now rewrite Hv, IHitems.
Qed.

Lemma safe_leaves_map_leaves (obj : pyobj) :
  safe_leaves (map_leaves leaf_text obj) = true.
Proof.
  induction obj as [s|items IH|items IH] using pyobj_ind;
    cbn [map_leaves safe_leaves].
  - destruct s; reflexivity.
  - induction IH as [|[k v] items Hv _ IHitems]; [reflexivity|].
    cbn [map forallb snd] in *. now rewrite Hv, IHitems.
  - induction IH as [|v items Hv _ IHitems]; [reflexivity|].
    cbn [map forallb]. now rewrite Hv, IHitems.
Qed.


(** Two byte strings with the same sanitized text are the same bytes. *)
Theorem sanitize_bytes_injective (b1 b2 : list byte) :
  simulate_swift_sanitize key_eq (Scalar (PyBytes b1))
  = simulate_swift_sanitize key_eq (Scalar (PyBytes b2)) ->
  b1 = b2.
Proof.
  rewrite !sanitize_scalar. cbn [leaf_text]. intros H. injection H as H.
  apply (f_equal list_byte_of_string) in H.
  rewrite !list_byte_of_string_of_list_byte in H.
  apply (f_equal Base64.b64decode) in H.
  rewrite !b64decode_b64encode in H. now injection H.
Qed.

(** Two paths with the same sanitized text are the same path. *)
Theorem sanitize_path_injective (p1 p2 : Pathlib.PurePosixPath) :
  Pathlib.parsed p1 = true -> Pathlib.parsed p2 = true ->
  simulate_swift_sanitize key_eq (Scalar (PyPath p1))
  = simulate_swift_sanitize key_eq (Scalar (PyPath p2)) ->
  p1 = p2.
Proof.
  intros H1 H2 H. cbn [simulate_swift_sanitize] in H. injection H as H.
  rewrite <- (parse_path_str p1 H1), <- (parse_path_str p2 H2).
  now rewrite H.
Qed.

End SanitizerMore.

(** ** The text of an instant, continued *)

Section DatetimeMore.

Import Datetime.
Local Open Scope string_scope.

Variable key_eq : scalar -> scalar -> bool.

(** The text of an instant: date, [T], time, then the fraction and the
    offset when there are any. *)
Lemma isoformat_valid (d : datetime) :
  valid d = true ->
  isoformat d
  = zero_padded 4 (year d) ++ "-" ++ zero_padded 2 (month d) ++ "-"
      ++ zero_padded 2 (day d) ++ "T"
      ++ zero_padded 2 (hour d) ++ ":" ++ zero_padded 2 (minute d) ++ ":"
      ++ zero_padded 2 (second d)
      ++ (if (microsecond d =? 0)%N then EmptyString
          else "." ++ zero_padded 6 (microsecond d))
      ++ _format_offset (utcoffset d).
Proof.
  intros Hv.
  destruct (valid_bounds d Hv) as (Hy & Hm & Hd & Hh & Hmi & Hs & Hus).
  unfold isoformat, _format_time.
  rewrite !fmt_0d_zero_padded by (first [lia | assumption]).
  destruct (microsecond d =? 0)%N; now rewrite ?string_app_assoc.
Qed.

Lemma format_offset_sign (off : Z) :
  exists c rest,
    _format_offset (Some off) = String c rest /\ Ascii.eqb c "Z" = false.
Proof.
  unfold _format_offset. cbv zeta.
  destruct (off <? 0)%Z;
    destruct (_ =? 0)%N; try destruct (_ =? 0)%N;
    cbn [append]; eexists _, _; split; reflexivity.
Qed.

(** Past the seconds, the text must be at its [Z]. *)
Lemma shape_seconds_Z_tail (d : datetime) :
  valid d = true ->
  shape_seconds_Z (isoformat d ++ "Z")
  = lit "Z" fin
      ((if (microsecond d =? 0)%N then EmptyString
        else "." ++ zero_padded 6 (microsecond d))
         ++ _format_offset (utcoffset d) ++ "Z").
Proof.
  intros Hv. rewrite (isoformat_valid d Hv).
  unfold shape_seconds_Z, date_time_then.
  repeat (rewrite ?string_app_assoc, ?digits_then_zero_padded;
          cbn [append lit Ascii.eqb Bool.eqb andb]).
  reflexivity.
Qed.

(** The text of an instant has the shape [YYYY-MM-DDTHH:MM:SSZ] exactly
    when the instant has no UTC offset and a microsecond of zero. *)
Theorem seconds_shape_iff (d : datetime) :
  valid d = true ->
  exists s,
    simulate_swift_sanitize key_eq (Scalar (PyDatetime d))
    = Ok (Scalar (PyStr s))
    /\ (shape_seconds_Z s = true
        <-> utcoffset d = None /\ microsecond d = 0%N).
Proof.
  intros Hv. exists (isoformat d ++ "Z"). split; [reflexivity|].
  rewrite (shape_seconds_Z_tail d Hv).
  destruct (microsecond d =? 0)%N eqn:Hus.
  - apply N.eqb_eq in Hus. destruct (utcoffset d) as [off|].
    + destruct (format_offset_sign off) as (c & rest & -> & Hc).
      cbn [append lit]. rewrite Hc. split; [discriminate|].
      intros [H _]; discriminate H.
    + split; [auto|reflexivity].
  - apply N.eqb_neq in Hus. cbn [append lit Ascii.eqb Bool.eqb andb].
    split; [discriminate|]. intros [_ H]. contradiction.
Qed.

(** *** Distinct instants have distinct texts *)

Lemma zero_padded_length (w : nat) :
  forall n, String.length (zero_padded w n) = w.
Proof.
  induction w as [|w IH]; intros n; [reflexivity|].
  cbn [zero_padded]. rewrite string_app_length, IH. cbn. lia.
Qed.

Lemma string_app_inv (a a' b b' : string) :
  String.length a = String.length a' ->
  a ++ b = a' ++ b' -> a = a' /\ b = b'.
Proof.
  revert a'. induction a as [|x a IH]; intros [|x' a'] Hlen H;
    try discriminate Hlen.
  - auto.
  - cbn [append] in H. injection H as -> H. injection Hlen as Hlen.
    destruct (IH a' Hlen H) as [-> ->]. auto.
Qed.

Lemma digit_inj (n m : N) : digit n = digit m -> (n mod 10 = m mod 10)%N.
Proof.
  unfold digit. intros H. apply (f_equal N_of_ascii) in H.
  assert (n mod 10 < 10)%N by (apply N.mod_lt; lia).
  assert (m mod 10 < 10)%N by (apply N.mod_lt; lia).
  rewrite !N_ascii_embedding in H by lia. lia.
Qed.

Lemma zero_padded_inj (w : nat) :
  forall n m,
    (n < 10 ^ N.of_nat w)%N -> (m < 10 ^ N.of_nat w)%N ->
    zero_padded w n = zero_padded w m -> n = m.
Proof.
  induction w as [|w IH]; intros n m Hn Hm H.
  - cbn in Hn, Hm. lia.
  - cbn [zero_padded] in H.
    apply string_app_inv in H as [Hhigh Hlow];
      [|now rewrite !zero_padded_length].
    injection Hlow as Hlow. apply digit_inj in Hlow.
    apply IH in Hhigh; [|now apply div10_lt..].
    rewrite (N.div_mod n 10), (N.div_mod m 10) by lia. now rewrite Hhigh, Hlow.
Qed.

Lemma string_tail_eq (c c' : ascii) (a b : string) :
  String c a = String c' b -> a = b.
Proof. intros H. now injection H. Qed.

(** Two instants without UTC offset that have the same text are the same
    instant, to the microsecond. *)
Theorem sanitize_instant_injective (d1 d2 : datetime) :
  valid d1 = true -> valid d2 = true ->
  utcoffset d1 = None -> utcoffset d2 = None ->
  simulate_swift_sanitize key_eq (Scalar (PyDatetime d1))
  = simulate_swift_sanitize key_eq (Scalar (PyDatetime d2)) ->
  d1 = d2.
Proof.
  intros Hv1 Hv2 Ho1 Ho2 H. cbn [simulate_swift_sanitize] in H.
  injection H as H.
  rewrite (isoformat_valid d1 Hv1), (isoformat_valid d2 Hv2) in H.
  rewrite Ho1, Ho2 in H. cbn [_format_offset] in H.
  destruct (valid_bounds d1 Hv1) as (Hy1 & Hm1 & Hd1 & Hh1 & Hmi1 & Hs1 & Hu1).
  destruct (valid_bounds d2 Hv2) as (Hy2 & Hm2 & Hd2 & Hh2 & Hmi2 & Hs2 & Hu2).
  rewrite !string_app_assoc in H.
  apply string_app_inv in H as [Hy H]; [|now rewrite !zero_padded_length].
  cbn [append] in H. apply string_tail_eq in H.
  apply string_app_inv in H as [Hm H]; [|now rewrite !zero_padded_length].
  cbn [append] in H. apply string_tail_eq in H.
  apply string_app_inv in H as [Hd H]; [|now rewrite !zero_padded_length].
  cbn [append] in H. apply string_tail_eq in H.
  apply string_app_inv in H as [Hh H]; [|now rewrite !zero_padded_length].
  cbn [append] in H. apply string_tail_eq in H.
  apply string_app_inv in H as [Hmi H]; [|now rewrite !zero_padded_length].
  cbn [append] in H. apply string_tail_eq in H.
  apply string_app_inv in H as [Hs H]; [|now rewrite !zero_padded_length].
  apply (zero_padded_inj 4) in Hy; [|assumption..].
  apply (zero_padded_inj 2) in Hm; [|assumption..].
  apply (zero_padded_inj 2) in Hd; [|assumption..].
  apply (zero_padded_inj 2) in Hh; [|assumption..].
  apply (zero_padded_inj 2) in Hmi; [|assumption..].
  apply (zero_padded_inj 2) in Hs; [|assumption..].
  assert (Hus : microsecond d1 = microsecond d2).
  { destruct (microsecond d1 =? 0)%N eqn:E1;
      destruct (microsecond d2 =? 0)%N eqn:E2;
      cbn [append] in H; try discriminate H.
    - apply N.eqb_eq in E1, E2. congruence.
    - apply string_tail_eq in H. rewrite ?string_app_assoc in H.
      apply string_app_inv in H as [Hus _];
        [|now rewrite !zero_padded_length].
      now apply (zero_padded_inj 6) in Hus. }
  destruct d1, d2. cbn in *. congruence.
Qed.

End DatetimeMore.

(* ================================================================= *)
(** * The further properties at work on concrete values *)

Example checker_on_the_demonstration_data :
  simulate_yaml_issues kind_only kind_only (problematic_data a_clock_reading)
    "SetDisplayResolution.plist"
  = [ "install_date: datetime = <datetime>...";
      "receipt_data: bytes = <bytes>...";
      "complex_metadata.creation_date: datetime = <datetime>...";
      "complex_metadata.binary_info: bytes = <bytes>...";
      "complex_metadata.nested_structure.timestamp: datetime = <datetime>...";
      "complex_metadata.nested_structure.data_blob: bytes = <bytes>..."
    ]%string.
Proof. reflexivity. Qed.

(** A character of two bytes (195, 169) counts once and is not cut. *)
Example slice_keeps_whole_characters :
  Text.take_chars 2
    (String "a" (String (ascii_of_N 195) (String (ascii_of_N 169) "bc")))
  = String "a" (String (ascii_of_N 195) (String (ascii_of_N 169) EmptyString))
  /\ Text.char_len
       (String "a" (String (ascii_of_N 195) (String (ascii_of_N 169) "bc")))
     = 4%nat.
Proof. split; reflexivity. Qed.

Lemma no_issue_iff_unchanged_witness :
  well_formed same_key widget = true
  /\ forallb (fun s => negb (has_path_leaf s)) (leaves widget) = true
  /\ (simulate_yaml_issues kind_only kind_only widget "widget.plist" = []
      <-> simulate_swift_sanitize same_key widget = Ok widget).
Proof.
  split; [reflexivity|]. split; [reflexivity|].
  apply (no_issue_iff_unchanged kind_only kind_only same_key widget);
    reflexivity.
Defined.

Lemma path_leaves_escape_the_checker_witness :
  well_formed same_key path_only = true
  /\ filter is_reported (leaves path_only) = []
  /\ existsb has_path_leaf (leaves path_only) = true
  /\ simulate_yaml_issues kind_only kind_only path_only "paths.plist" = []
  /\ simulate_swift_sanitize same_key path_only <> Ok path_only.
Proof.
  split; [reflexivity|]. split; [reflexivity|]. split; [reflexivity|].
  apply (path_leaves_escape_the_checker kind_only kind_only same_key
           path_only); reflexivity.
Defined.

Lemma issues_labelled_under_path_witness :
  (exists new,
     check_object kind_only kind_only (problematic_data a_clock_reading)
       (PyStr EmptyString) ["earlier"%string]
     = ["earlier"%string] ++ new)
  /\ truthy (PyStr "pkginfo") = true
  /\ exists new,
       check_object kind_only kind_only (problematic_data a_clock_reading)
         (PyStr "pkginfo") ["earlier"%string]
       = ["earlier"%string] ++ new
       /\ Forall (fun line => Text.starts_with "pkginfo" line = true) new.
Proof.
  split.
  - destruct (issues_labelled_under_path kind_only kind_only
                (problematic_data a_clock_reading) (PyStr EmptyString)
                ["earlier"%string]) as (new & Hnew & _).
    now exists new.
  - split; [reflexivity|].
    destruct (issues_labelled_under_path kind_only kind_only
                (problematic_data a_clock_reading) (PyStr "pkginfo")
                ["earlier"%string]) as (new & Hnew & Hlabels).
    exists new. split; [exact Hnew|]. apply Hlabels. reflexivity.
Defined.

Lemma issue_label_is_dotted_keys_witness :
  forallb (fun k => negb (Pathlib.is_empty k)) blob_keys = true
  /\ is_reported (PyBytes (list_byte_of_string "nested_binary")) = true
  /\ simulate_yaml_issues kind_only kind_only
       (under_keys blob_keys
          (Scalar (PyBytes (list_byte_of_string "nested_binary"))))
       "SetDisplayResolution.plist"
     = ["complex_metadata.nested_structure.data_blob: bytes = <bytes>..."
       ]%string.
Proof.
  split; [reflexivity|]. split; [reflexivity|].
  apply (issue_label_is_dotted_keys kind_only kind_only blob_keys
           (PyBytes (list_byte_of_string "nested_binary")));
    reflexivity.
Defined.

Lemma issue_label_is_index_witness :
  forallb is_reported two_blobs = true
  /\ nth_error two_blobs 1
     = Some (PyDatetime (Datetime.mk_datetime 2024 1 15 10 30 0 0 None))
  /\ nth_error
       (simulate_yaml_issues kind_only kind_only
          (PyList (map Scalar two_blobs)) "list.plist") 1
     = Some "[1]: datetime = <datetime>..."%string.
Proof.
  split; [reflexivity|]. split; [reflexivity|].
  apply (issue_label_is_index kind_only kind_only two_blobs "list.plist" 1
           (PyDatetime (Datetime.mk_datetime 2024 1 15 10 30 0 0 None)));
    reflexivity.
Defined.

Lemma find_munki_repos_sound_witness :
  In (joinpath deployment "pkgsinfo")
    (find_munki_repos deployed_exists deployed_walk)
  /\ exists c,
       In c possible_paths
       /\ found_for deployed_exists deployed_walk c
            (joinpath deployment "pkgsinfo").
Proof.
  split; [left; reflexivity|].
  apply (find_munki_repos_sound deployed_exists deployed_walk
           (joinpath deployment "pkgsinfo")).
  left; reflexivity.
Defined.

Lemma find_munki_repos_complete_witness :
  In "/Users/rod/DevOps/Munki"%string possible_paths
  /\ deployed_exists munki_dir = true
  /\ existsb has_pkgsinfo (deployed_walk munki_dir) = true
  /\ exists repo,
       In repo (find_munki_repos deployed_exists deployed_walk)
       /\ found_for deployed_exists deployed_walk "/Users/rod/DevOps/Munki"
            repo.
Proof.
  split; [right; left; reflexivity|]. split; [reflexivity|].
  split; [reflexivity|].
  destruct (find_munki_repos_complete deployed_exists deployed_walk
              "/Users/rod/DevOps/Munki")
    as (repo & Hin & Hfor & _).
  - right; left; reflexivity.
  - reflexivity.
  - right; reflexivity.
  - exists repo. split; assumption.
Defined.

Lemma find_munki_repos_repeats_witness :
  deployed_exists deployment = true
  /\ deployed_exists (joinpath deployment "pkgsinfo") = true
  /\ deployed_exists munki_dir = true
  /\ deployed_exists (joinpath munki_dir "pkgsinfo") = false
  /\ find has_pkgsinfo (deployed_walk munki_dir)
     = Some ("/Users/rod/DevOps/Munki/deployment",
             ["pkgsinfo"; "catalogs"], [])%string
  /\ ~ NoDup (find_munki_repos deployed_exists deployed_walk).
Proof.
  repeat (split; [reflexivity|]).
  apply (find_munki_repos_repeats deployed_exists deployed_walk
           "/Users/rod/DevOps/Munki/deployment"
           ["pkgsinfo"; "catalogs"]%string []);
    reflexivity.
Defined.


Lemma sanitize_bytes_injective_witness :
  simulate_swift_sanitize same_key
    (Scalar (PyBytes (list_byte_of_string "ab")))
  = simulate_swift_sanitize same_key
      (Scalar (PyBytes (list_byte_of_string "ab")))
  /\ list_byte_of_string "ab" = list_byte_of_string "ab".
Proof.
  split; [reflexivity|].
  apply (sanitize_bytes_injective same_key (list_byte_of_string "ab")
           (list_byte_of_string "ab")).
  reflexivity.
Defined.

Lemma sanitize_path_injective_witness :
  Pathlib.parsed dotted_path = true
  /\ simulate_swift_sanitize same_key (Scalar (PyPath dotted_path))
     = simulate_swift_sanitize same_key (Scalar (PyPath dotted_path))
  /\ dotted_path = dotted_path.
Proof.
  split; [reflexivity|]. split; [reflexivity|].
  apply (sanitize_path_injective same_key dotted_path dotted_path);
    reflexivity.
Defined.

Lemma seconds_shape_iff_witness :
  Datetime.valid a_clock_reading = true
  /\ exists s,
       simulate_swift_sanitize same_key (Scalar (PyDatetime a_clock_reading))
       = Ok (Scalar (PyStr s))
       /\ (Datetime.shape_seconds_Z s = true
           <-> Datetime.utcoffset a_clock_reading = None
               /\ Datetime.microsecond a_clock_reading = 0%N).
Proof.
  split; [reflexivity|].
  apply (seconds_shape_iff same_key a_clock_reading). reflexivity.
Defined.

Lemma sanitize_instant_injective_witness :
  Datetime.valid a_clock_reading = true
  /\ Datetime.utcoffset a_clock_reading = None
  /\ simulate_swift_sanitize same_key (Scalar (PyDatetime a_clock_reading))
     = simulate_swift_sanitize same_key (Scalar (PyDatetime a_clock_reading))
  /\ a_clock_reading = a_clock_reading.
Proof.
  repeat (split; [reflexivity|]).
  apply (sanitize_instant_injective same_key a_clock_reading a_clock_reading);
    reflexivity.
Defined.

(* ================================================================= *)
(** * The calendar, and instants that are the same point in time *)

Section CalendarFacts.

Import Datetime Calendar.

Variable key_eq : scalar -> scalar -> bool.

Lemma leap_step_4 (y : Z) :
  ((y + 1 - 1) / 4 = (y - 1) / 4 + (if y mod 4 =? 0 then 1 else 0))%Z.
Proof.
  destruct (Z.eqb_spec (y mod 4) 0); Z.to_euclidean_division_equations; lia.
Qed.

Lemma leap_step_100 (y : Z) :
  ((y + 1 - 1) / 100 = (y - 1) / 100 + (if y mod 100 =? 0 then 1 else 0))%Z.
Proof.
  destruct (Z.eqb_spec (y mod 100) 0); Z.to_euclidean_division_equations; lia.
Qed.

Lemma leap_step_400 (y : Z) :
  ((y + 1 - 1) / 400 = (y - 1) / 400 + (if y mod 400 =? 0 then 1 else 0))%Z.
Proof.
  destruct (Z.eqb_spec (y mod 400) 0); Z.to_euclidean_division_equations; lia.
Qed.

Lemma mod_eqb_N_Z (y k : N) :
  (0 < k)%N -> (y mod k =? 0)%N = (Z.of_N y mod Z.of_N k =? 0)%Z.
Proof.
  intros Hk. rewrite <- N2Z.inj_mod.
  destruct (N.eqb_spec (y mod k) 0), (Z.eqb_spec (Z.of_N (y mod k)) 0);
    (reflexivity || lia).
Qed.

(** A year is 365 days long, 366 when it is leap. *)
Lemma days_before_year_succ (y : N) :
  (_days_before_year (Z.of_N y + 1)
   = _days_before_year (Z.of_N y) + 365 + (if _is_leap y then 1 else 0))%Z.
Proof.
  unfold _days_before_year, _is_leap. cbv zeta.
  rewrite leap_step_4, leap_step_100, leap_step_400.
  rewrite (mod_eqb_N_Z y 4), (mod_eqb_N_Z y 100), (mod_eqb_N_Z y 400) by lia.
  change (Z.of_N 4) with 4%Z. change (Z.of_N 100) with 100%Z.
  change (Z.of_N 400) with 400%Z.
  assert (H100 : (Z.of_N y mod 100 = 0 -> Z.of_N y mod 4 = 0)%Z)
    by (intros; Z.to_euclidean_division_equations; lia).
  assert (H400 : (Z.of_N y mod 400 = 0 -> Z.of_N y mod 100 = 0)%Z)
    by (intros; Z.to_euclidean_division_equations; lia).
  destruct (Z.eqb_spec (Z.of_N y mod 4) 0), (Z.eqb_spec (Z.of_N y mod 100) 0),
    (Z.eqb_spec (Z.of_N y mod 400) 0); cbn [andb orb negb];
    try (exfalso; tauto); lia.
Qed.

Lemma days_before_year_mono (a b : Z) :
  (a <= b)%Z -> (_days_before_year a <= _days_before_year b)%Z.
Proof.
  unfold _days_before_year. cbv zeta. intros H.
  Z.to_euclidean_division_equations. lia.
Qed.

(** The twelve months. *)
Ltac each_month m :=
  let H := fresh "Hmonth" in
  assert (H : (m = 1 \/ m = 2 \/ m = 3 \/ m = 4 \/ m = 5 \/ m = 6 \/ m = 7
               \/ m = 8 \/ m = 9 \/ m = 10 \/ m = 11 \/ m = 12)%N) by lia;
  repeat (destruct H as [H|H]; [subst m|]); [..|subst m].

Lemma month_within_year (y m : N) :
  (1 <= m <= 12)%N ->
  (0 <= _days_before_month y m
   /\ _days_before_month y m + Z.of_N (_days_in_month y m)
      <= 365 + (if _is_leap y then 1 else 0))%Z.
Proof.
  intros Hm. unfold _days_in_month, _days_before_month.
  destruct (_is_leap y); each_month m; vm_compute; split; discriminate.
Qed.

Lemma months_in_order (y m m' : N) :
  (1 <= m)%N -> (m < m')%N -> (m' <= 12)%N ->
  (_days_before_month y m + Z.of_N (_days_in_month y m)
   <= _days_before_month y m')%Z.
Proof.
  intros Hm Hlt Hm'. unfold _days_in_month, _days_before_month.
  assert (H1 : (1 <= m <= 12)%N) by lia.
  assert (H2 : (1 <= m' <= 12)%N) by lia.
  destruct (_is_leap y); each_month m; each_month m'; try lia;
    vm_compute; discriminate.
Qed.

Lemma day_of_year_bounds (y m d : N) :
  (1 <= m <= 12)%N -> (1 <= d <= _days_in_month y m)%N ->
  (1 <= _days_before_month y m + Z.of_N d
   <= 365 + (if _is_leap y then 1 else 0))%Z.
Proof.
  intros Hm Hd. pose proof (month_within_year y m Hm). lia.
Qed.

Lemma day_of_year_inj (y m d m' d' : N) :
  (1 <= m <= 12)%N -> (1 <= d <= _days_in_month y m)%N ->
  (1 <= m' <= 12)%N -> (1 <= d' <= _days_in_month y m')%N ->
  (_days_before_month y m + Z.of_N d
   = _days_before_month y m' + Z.of_N d')%Z ->
  m = m' /\ d = d'.
Proof.
  intros Hm Hd Hm' Hd' H.
  destruct (N.lt_trichotomy m m') as [Hlt|[->|Hlt]].
  - pose proof (months_in_order y m m'). lia.
  - split; [reflexivity|lia].
  - pose proof (months_in_order y m' m). lia.
Qed.

(** A day has one ordinal, and an ordinal one day. *)
Lemma ymd2ord_inj (y m d y' m' d' : N) :
  (1 <= m <= 12)%N -> (1 <= d <= _days_in_month y m)%N ->
  (1 <= m' <= 12)%N -> (1 <= d' <= _days_in_month y' m')%N ->
  _ymd2ord y m d = _ymd2ord y' m' d' ->
  y = y' /\ m = m' /\ d = d'.
Proof.
  intros Hm Hd Hm' Hd' H. unfold _ymd2ord in H.
  pose proof (day_of_year_bounds y m d Hm Hd) as Hdoy.
  pose proof (day_of_year_bounds y' m' d' Hm' Hd') as Hdoy'.
  pose proof (days_before_year_succ y) as Hy.
  pose proof (days_before_year_succ y') as Hy'.
  destruct (N.lt_trichotomy y y') as [Hlt|[->|Hlt]].
  - pose proof (days_before_year_mono (Z.of_N y + 1) (Z.of_N y')). lia.
  - split; [reflexivity|]. apply (day_of_year_inj y'); auto. lia.
  - pose proof (days_before_year_mono (Z.of_N y' + 1) (Z.of_N y)). lia.
Qed.

(** The fields that the constructor has checked. *)
Lemma valid_fields (d : datetime) :
  valid d = true ->
  (1 <= month d <= 12 /\ 1 <= day d <= _days_in_month (year d) (month d)
   /\ hour d < 24 /\ minute d < 60 /\ second d < 60
   /\ microsecond d < 1000000)%N.
Proof.
  unfold valid. intros H. apply andb_true_iff in H as [H _].
  repeat (apply andb_true_iff in H as [H ?]).
  repeat match goal with
         | E : (_ <=? _)%N = true |- _ => apply N.leb_le in E
         | E : (_ <? _)%N = true |- _ => apply N.ltb_lt in E
         end.
  lia.
Qed.

(** Two instants at the same date and time of day have the same fields. *)
Lemma local_us_inj (d1 d2 : datetime) :
  valid d1 = true -> valid d2 = true ->
  local_us d1 = local_us d2 ->
  same_fields d1 d2 = true.
Proof.
  intros Hv1 Hv2 H. unfold local_us in H.
  destruct (valid_fields d1 Hv1) as (Hm1 & Hd1 & Hh1 & Hmi1 & Hs1 & Hu1).
  destruct (valid_fields d2 Hv2) as (Hm2 & Hd2 & Hh2 & Hmi2 & Hs2 & Hu2).
  assert (Hord : _ymd2ord (year d1) (month d1) (day d1)
                 = _ymd2ord (year d2) (month d2) (day d2)) by lia.
  destruct (ymd2ord_inj _ _ _ _ _ _ Hm1 Hd1 Hm2 Hd2 Hord) as (Hy & Hm & Hd).
  unfold same_fields.
  rewrite Hy, Hm, Hd, !N.eqb_refl. cbn [andb].
  rewrite Hord in H.
  assert (hour d1 = hour d2) as -> by lia.
  assert (minute d1 = minute d2) as -> by lia.
  assert (second d1 = second d2) as -> by lia.
  assert (microsecond d1 = microsecond d2) as -> by lia.
  now rewrite !N.eqb_refl.
Qed.

Lemma same_fields_eq (d1 d2 : datetime) :
  same_fields d1 d2 = true -> utcoffset d1 = utcoffset d2 -> d1 = d2.
Proof.
  unfold same_fields. intros H Hoff.
  repeat (apply andb_true_iff in H as [H ?]).
  repeat match goal with
         | E : (_ =? _)%N = true |- _ => apply N.eqb_eq in E
         end.
  destruct d1, d2. cbn in *. congruence.
Qed.


End CalendarFacts.


